(** * Repairshop: the booking wizard and the product carousel

    A shallow embedding of the view logic of [RepairBooking]
    (device / subtype / brand / model / services / appointment wizard) and of
    [ProductCarousel], followed by the properties established about them.

    React state is a record, one field per [useState] cell.  An event handler
    is a command that reads the state captured at the start of the handler,
    writes through the setters, and emits the outward effects it performs
    (history entries, callbacks, network requests, timers).  An [async]
    function is cut at its [await]: the part that runs when the handler is
    called, and the part that runs when the response arrives. *)

From Stdlib Require Import ZArith List String Bool Lia Permutation Floats.
Import ListNotations.
Local Open Scope string_scope.
Local Open Scope list_scope.
Local Open Scope Z_scope.

(** ** Data model (the interfaces of the booking component) *)

Module RepairBooking.

(** ['mobile' | 'laptop'] *)
Inductive DeviceType := mobile | laptop.

Definition DeviceType_eqb (a b : DeviceType) : bool :=
  match a, b with
  | mobile, mobile | laptop, laptop => true
  | _, _ => false
  end.

(** The [icon] members are React nodes and carry no logic; they are left out. *)
Record Device := mkDevice {
  dev_id : string;
  dev_name : string;
  dev_type : DeviceType
}.

Record DeviceSubtype := mkSubtype {
  sub_id : string;
  sub_name : string;
  sub_parentType : DeviceType
}.

Record Brand := mkBrand {
  brand_id : option string;
  brand_name : string;
  brand_models : option (list string);
  brand_repairCount : option Z;
  brand_createdAt : option string;
  brand_updatedAt : option string
}.

(** [estimatedCost] is a JS number: an IEEE 754 double. *)
Record RepairService := mkService {
  svc_name : string;
  estimatedCost : float;
  svc_description : string;
  screenType : option string;
  includesKeyboard : option bool;
  includesStylus : option bool;
  includesControllers : option bool;
  svc_id : option string
}.

Record RepairDocument := mkDoc {
  doc_id : string;
  doc_brand : string;
  doc_model : string;
  repairOptions : list RepairService;
  doc_createdAt : option string;
  doc_updatedAt : option string
}.

Record AppointmentData := mkAppointment {
  date : string;
  time : string;
  name : string;
  firstName : string;
  email : string;
  phone : string
}.

Record Loading := mkLoading {
  loading_brands : bool;
  loading_models : bool;
  loading_submitting : bool
}.

(** [RepairBookingProps]: both members are optional; of the callback only its
    presence matters to the wizard. *)
Record Props := mkProps {
  deviceType : option DeviceType;
  onBackToHome : bool
}.

Definition API_BASE_URL : string :=
  "https://rppe4wbr3k.execute-api.eu-west-3.amazonaws.com/api".

Definition devices : list Device :=
  [ mkDevice "mobile" "Téléphone Mobile" mobile;
    mkDevice "laptop" "Ordinateur Portable" laptop ].

Definition deviceSubtypes : list DeviceSubtype :=
  [ mkSubtype "mobile" "Téléphone Mobile" mobile;
    mkSubtype "tablet" "Tablette" mobile;
    mkSubtype "laptop" "Ordinateur Portable" laptop;
    mkSubtype "console" "Console de Jeu" laptop ].

(** ** The component state: one field per [useState] *)

Record State := mkState {
  currentStep : Z;
  selectedDevice : option Device;
  selectedSubtype : option DeviceSubtype;
  selectedBrand : option Brand;
  selectedRepairDoc : option RepairDocument;
  selectedServices : list string;
  searchTerm : string;
  appointmentData : AppointmentData;
  isMobile : bool;
  brands : list Brand;
  repairDocs : list RepairDocument;
  isLoading : Loading;
  error : option string;
  showSuccessPopup : bool
}.

Definition emptyAppointment : AppointmentData :=
  mkAppointment "" "" "" "" "" "".

(** State initialization: the initial values handed to [useState]. *)
Definition initialState (p : Props) : State :=
  {| currentStep := match deviceType p with Some _ => 2 | None => 1 end;
     selectedDevice :=
       match deviceType p with
       | Some t => find (fun d => DeviceType_eqb (dev_type d) t) devices
       | None => None
       end;
     selectedSubtype := None;
     selectedBrand := None;
     selectedRepairDoc := None;
     selectedServices := [];
     searchTerm := "";
     appointmentData := emptyAppointment;
     isMobile := false;
     brands := [];
     repairDocs := [];
     isLoading := mkLoading false false false;
     error := None;
     showSuccessPopup := false |}.

(** ** Outward effects *)

Record PayloadService := mkPayloadService {
  ps_id : string;
  ps_name : option string;
  ps_price : option float;
  ps_description : option string
}.

Record Payload := mkPayload {
  pl_deviceType : option DeviceType;
  pl_deviceName : option string;
  pl_subtype : option string;
  pl_subtypeName : option string;
  pl_brand : option string;
  pl_model : string;
  pl_services : list PayloadService;
  pl_totalPrice : float;
  pl_customer : string * string * string * string;
  pl_appointment : string * string;
  pl_createdAt : string
}.

(** The callbacks handed to [setTimeout]. *)
Inductive TimerAction := ResetAfterSuccess.

Inductive Effect :=
| PreventDefault
| HistoryPush (step : Z)
| HistoryReplace (step : Z)
| CallBackToHome
| Fetch (url : string)
| Post (url : string) (body : Payload)
| ConsoleError (msg : string)
| ConsoleLog (msg : string)
| SetTimeout (action : TimerAction) (ms : Z).

Definition isNetworkCall (e : Effect) : bool :=
  match e with
  | Fetch _ | Post _ _ => true
  | _ => false
  end.

(** ** Commands: state passing with an effect log *)

Definition Cmd : Type := State -> State * list Effect.

Definition skip : Cmd := fun st => (st, []).

Definition emit (e : Effect) : Cmd := fun st => (st, [e]).

Definition andThen (c1 c2 : Cmd) : Cmd := fun st =>
  let (s1, e1) := c1 st in
  let (s2, e2) := c2 s1 in
  (s2, e1 ++ e2).

Declare Scope cmd_scope.
Delimit Scope cmd_scope with cmd.
Bind Scope cmd_scope with Cmd.
Notation "c1 ;; c2" := (andThen c1 c2)
  (at level 61, right associativity) : cmd_scope.
Local Open Scope cmd_scope.

Definition setCurrentStep (v : Z) : Cmd := fun st =>
  (mkState v (selectedDevice st) (selectedSubtype st) (selectedBrand st)
     (selectedRepairDoc st) (selectedServices st) (searchTerm st)
     (appointmentData st) (isMobile st) (brands st) (repairDocs st)
     (isLoading st) (error st) (showSuccessPopup st), []).

Definition setSelectedDevice (v : option Device) : Cmd := fun st =>
  (mkState (currentStep st) v (selectedSubtype st) (selectedBrand st)
     (selectedRepairDoc st) (selectedServices st) (searchTerm st)
     (appointmentData st) (isMobile st) (brands st) (repairDocs st)
     (isLoading st) (error st) (showSuccessPopup st), []).

Definition setSelectedSubtype (v : option DeviceSubtype) : Cmd := fun st =>
  (mkState (currentStep st) (selectedDevice st) v (selectedBrand st)
     (selectedRepairDoc st) (selectedServices st) (searchTerm st)
     (appointmentData st) (isMobile st) (brands st) (repairDocs st)
     (isLoading st) (error st) (showSuccessPopup st), []).

Definition setSelectedBrand (v : option Brand) : Cmd := fun st =>
  (mkState (currentStep st) (selectedDevice st) (selectedSubtype st) v
     (selectedRepairDoc st) (selectedServices st) (searchTerm st)
     (appointmentData st) (isMobile st) (brands st) (repairDocs st)
     (isLoading st) (error st) (showSuccessPopup st), []).

Definition setSelectedRepairDoc (v : option RepairDocument) : Cmd := fun st =>
  (mkState (currentStep st) (selectedDevice st) (selectedSubtype st)
     (selectedBrand st) v (selectedServices st) (searchTerm st)
     (appointmentData st) (isMobile st) (brands st) (repairDocs st)
     (isLoading st) (error st) (showSuccessPopup st), []).

(** [setSelectedServices] is used both with a value and with an updater. *)
Definition updSelectedServices (f : list string -> list string) : Cmd := fun st =>
  (mkState (currentStep st) (selectedDevice st) (selectedSubtype st)
     (selectedBrand st) (selectedRepairDoc st) (f (selectedServices st))
     (searchTerm st) (appointmentData st) (isMobile st) (brands st)
     (repairDocs st) (isLoading st) (error st) (showSuccessPopup st), []).

Definition setSelectedServices (v : list string) : Cmd :=
  updSelectedServices (fun _ => v).

Definition setSearchTerm (v : string) : Cmd := fun st =>
  (mkState (currentStep st) (selectedDevice st) (selectedSubtype st)
     (selectedBrand st) (selectedRepairDoc st) (selectedServices st) v
     (appointmentData st) (isMobile st) (brands st) (repairDocs st)
     (isLoading st) (error st) (showSuccessPopup st), []).

Definition setAppointmentData (v : AppointmentData) : Cmd := fun st =>
  (mkState (currentStep st) (selectedDevice st) (selectedSubtype st)
     (selectedBrand st) (selectedRepairDoc st) (selectedServices st)
     (searchTerm st) v (isMobile st) (brands st) (repairDocs st)
     (isLoading st) (error st) (showSuccessPopup st), []).

Definition setBrands (v : list Brand) : Cmd := fun st =>
  (mkState (currentStep st) (selectedDevice st) (selectedSubtype st)
     (selectedBrand st) (selectedRepairDoc st) (selectedServices st)
     (searchTerm st) (appointmentData st) (isMobile st) v (repairDocs st)
     (isLoading st) (error st) (showSuccessPopup st), []).

Definition setRepairDocs (v : list RepairDocument) : Cmd := fun st =>
  (mkState (currentStep st) (selectedDevice st) (selectedSubtype st)
     (selectedBrand st) (selectedRepairDoc st) (selectedServices st)
     (searchTerm st) (appointmentData st) (isMobile st) (brands st) v
     (isLoading st) (error st) (showSuccessPopup st), []).

(** [setIsLoading] is only ever called with an updater [prev => {...prev, k: b}]. *)
Definition updIsLoading (f : Loading -> Loading) : Cmd := fun st =>
  (mkState (currentStep st) (selectedDevice st) (selectedSubtype st)
     (selectedBrand st) (selectedRepairDoc st) (selectedServices st)
     (searchTerm st) (appointmentData st) (isMobile st) (brands st)
     (repairDocs st) (f (isLoading st)) (error st) (showSuccessPopup st), []).

Definition setError (v : option string) : Cmd := fun st =>
  (mkState (currentStep st) (selectedDevice st) (selectedSubtype st)
     (selectedBrand st) (selectedRepairDoc st) (selectedServices st)
     (searchTerm st) (appointmentData st) (isMobile st) (brands st)
     (repairDocs st) (isLoading st) v (showSuccessPopup st), []).

Definition setShowSuccessPopup (v : bool) : Cmd := fun st =>
  (mkState (currentStep st) (selectedDevice st) (selectedSubtype st)
     (selectedBrand st) (selectedRepairDoc st) (selectedServices st)
     (searchTerm st) (appointmentData st) (isMobile st) (brands st)
     (repairDocs st) (isLoading st) (error st) v, []).

Definition withBrands (b : bool) (l : Loading) : Loading :=
  mkLoading b (loading_models l) (loading_submitting l).

Definition withModels (b : bool) (l : Loading) : Loading :=
  mkLoading (loading_brands l) b (loading_submitting l).

Definition withSubmitting (b : bool) (l : Loading) : Loading :=
  mkLoading (loading_brands l) (loading_models l) b.

(** ** Operations *)

(** Reset form function. *)
Definition resetForm (p : Props) : Cmd :=
  setCurrentStep (match deviceType p with Some _ => 2 | None => 1 end) ;;
  (match deviceType p with
   | Some _ => skip
   | None => setSelectedDevice None
   end) ;;
  setSelectedSubtype None ;;
  setSelectedBrand None ;;
  setSelectedRepairDoc None ;;
  setSelectedServices [] ;;
  setAppointmentData (mkAppointment "" "" "" "" "" "") ;;
  setSearchTerm "".

(** What a request can come back with: [fetch] rejects with an error, or a
    response arrives with its [ok] flag and a body on which [json()] either
    rejects with an error ([inl], its message) or yields the parsed data. *)
Inductive Response (A : Type) :=
| NetworkFailure (message : string)
| HttpResponse (ok : bool) (body : string + A).
Arguments NetworkFailure {A} message.
Arguments HttpResponse {A} ok body.

(** The [switch] of [fetchBrands]; [None] is the [default:] branch, which
    throws [Error('Invalid subtype')]. *)
Definition brandCategory (id : string) : option string :=
  if String.eqb id "mobile" then Some "mobile"
  else if String.eqb id "tablet" then Some "tablet"
  else if String.eqb id "laptop" then Some "laptop"
  else if String.eqb id "console" then Some "console"
  else None.

Definition brandsUrl (category : string) : string :=
  (API_BASE_URL ++ "/brands/" ++ category)%string.

(** [fetchBrands] up to its [await fetch(...)]. When the switch throws, the
    [catch] and [finally] blocks run at once and nothing is requested. *)
Definition fetchBrands_start (sub : DeviceSubtype) : Cmd :=
  updIsLoading (withBrands true) ;;
  setError None ;;
  match brandCategory (sub_id sub) with
  | Some category => emit (Fetch (brandsUrl category))
  | None =>
      setError (Some "Failed to load brands") ;;
      emit (ConsoleError "Invalid subtype") ;;
      updIsLoading (withBrands false)
  end.

(** [fetchBrands] from the moment the request settles. *)
Definition fetchBrands_resolve (r : Response (list Brand)) : Cmd :=
  match r with
  | HttpResponse true (inr data) =>
      setBrands data ;;
      updIsLoading (withBrands false)
  | HttpResponse true (inl message) =>
      setError (Some "Failed to load brands") ;;
      emit (ConsoleError message) ;;
      updIsLoading (withBrands false)
  | HttpResponse false _ =>
      setError (Some "Failed to load brands") ;;
      emit (ConsoleError "Failed to fetch brands") ;;
      updIsLoading (withBrands false)
  | NetworkFailure message =>
      setError (Some "Failed to load brands") ;;
      emit (ConsoleError message) ;;
      updIsLoading (withBrands false)
  end.

(** The effect with dependency [selectedSubtype]: runs after a render in which
    the selected subtype changed. *)
Definition brandsEffect : Cmd := fun st =>
  match selectedSubtype st with
  | Some sub => fetchBrands_start sub st
  | None => skip st
  end.

(** The updater that [toggleService] hands to [setSelectedServices]. *)
Definition toggled (serviceId : string) (prev : list string) : list string :=
  if existsb (String.eqb serviceId) prev
  then filter (fun id => negb (String.eqb id serviceId)) prev
  else prev ++ [serviceId].

Definition toggleService (serviceId : string) : Cmd :=
  updSelectedServices (toggled serviceId).

(** [s._id === serviceId]: an absent [_id] is [undefined] and equals no string. *)
Definition hasId (serviceId : string) (s : RepairService) : bool :=
  match svc_id s with
  | Some i => String.eqb i serviceId
  | None => false
  end.

(** [selectedRepairDoc?.repairOptions.find(s => s._id === serviceId)] *)
Definition findService (doc : option RepairDocument) (serviceId : string)
  : option RepairService :=
  match doc with
  | Some d => find (hasId serviceId) (repairOptions d)
  | None => None
  end.

(** The [reduce] that computes [totalPrice]: double additions, from left to
    right, starting from 0. *)
Definition totalPriceOf (services : list string) (doc : option RepairDocument)
  : float :=
  fold_left
    (fun total serviceId =>
       (total + match findService doc serviceId with
                | Some service => estimatedCost service
                | None => 0
                end)%float)
    services 0%float.

Definition totalPrice (st : State) : float :=
  totalPriceOf (selectedServices st) (selectedRepairDoc st).

Definition isSome {A} (o : option A) : bool :=
  match o with Some _ => true | None => false end.

Definition prevStep (p : Props) : Cmd := fun st =>
  if 1 <? currentStep st then
    let newStep := currentStep st - 1 in
    if (newStep =? 1) && isSome (deviceType p) && onBackToHome p then
      emit CallBackToHome st
    else
      ((if newStep =? 1 then
          setSelectedDevice None ;;
          setSelectedSubtype None ;;
          setSelectedBrand None ;;
          setSelectedRepairDoc None ;;
          setSelectedServices []
        else if newStep =? 2 then
          setSelectedSubtype None ;;
          setSelectedBrand None ;;
          setSelectedRepairDoc None ;;
          setSelectedServices []
        else if newStep =? 3 then
          setSelectedBrand None ;;
          setSelectedRepairDoc None ;;
          setSelectedServices []
        else if newStep =? 4 then
          setSelectedRepairDoc None ;;
          setSelectedServices []
        else if newStep =? 5 then
          setSelectedServices []
        else skip) ;;
       setCurrentStep newStep ;;
       setSearchTerm "" ;;
       emit (HistoryReplace newStep)) st
  else skip st.

Definition nextStep : Cmd := fun st =>
  if currentStep st <? 6 then
    let newStep := currentStep st + 1 in
    (setCurrentStep newStep ;;
     setSearchTerm "" ;;
     emit (HistoryPush newStep)) st
  else skip st.

Definition handleModelSelection (repairDoc : RepairDocument) : Cmd :=
  setSelectedRepairDoc (Some repairDoc) ;; nextStep.

(** The [onClick] handlers of the device, subtype and brand tiles. *)
Definition selectDevice (device : Device) : Cmd :=
  setSelectedDevice (Some device) ;; setCurrentStep 2.

Definition selectSubtype (subtype : DeviceSubtype) : Cmd :=
  setSelectedSubtype (Some subtype) ;; nextStep.

Definition selectBrand (brand : Brand) : Cmd :=
  setSelectedBrand (Some brand) ;; nextStep.

(** A JS string is falsy exactly when it is empty. *)
Definition falsy (s : string) : bool := String.eqb s "".

Definition orElse (s default : string) : string :=
  if falsy s then default else s.

Definition appointmentsUrl : string := (API_BASE_URL ++ "/appointments")%string.

Definition appointmentPayload (now : string) (st : State) (doc : RepairDocument)
  : Payload :=
  {| pl_deviceType := option_map dev_type (selectedDevice st);
     pl_deviceName := option_map dev_name (selectedDevice st);
     pl_subtype := option_map sub_id (selectedSubtype st);
     pl_subtypeName := option_map sub_name (selectedSubtype st);
     pl_brand := option_map brand_name (selectedBrand st);
     pl_model := doc_model doc;
     pl_services :=
       map (fun id =>
              let service := find (hasId id) (repairOptions doc) in
              mkPayloadService id
                (option_map svc_name service)
                (option_map estimatedCost service)
                (option_map svc_description service))
           (selectedServices st);
     pl_totalPrice := totalPrice st;
     pl_customer :=
       (name (appointmentData st), firstName (appointmentData st),
        email (appointmentData st), phone (appointmentData st));
     pl_appointment := (date (appointmentData st), time (appointmentData st));
     pl_createdAt := now |}.

(** [handleSubmit] up to its [await fetch(...)]; [now] is what
    [new Date().toISOString()] returns. *)
Definition handleSubmit_start (now : string) : Cmd := fun st =>
  (emit PreventDefault ;;
   (if falsy (date (appointmentData st)) || falsy (time (appointmentData st))
       || falsy (name (appointmentData st)) || falsy (email (appointmentData st))
    then setError (Some "Veuillez remplir tous les champs obligatoires")
    else
      match selectedRepairDoc st with
      | None => setError (Some "Aucun document de réparation sélectionné")
      | Some doc =>
          updIsLoading (withSubmitting true) ;;
          setError None ;;
          emit (Post appointmentsUrl (appointmentPayload now st doc))
      end)) st.

Definition submitFailed : string := "Échec de la création du rendez-vous".

(** [handleSubmit] from the moment the request settles. The body of a response
    is the [message] member of the parsed JSON, when it has one. *)
Definition handleSubmit_resolve (r : Response (option string)) : Cmd :=
  match r with
  | HttpResponse true (inr _) =>
      emit (ConsoleLog "Rendez-vous créé:") ;;
      setShowSuccessPopup true ;;
      emit (SetTimeout ResetAfterSuccess 3000) ;;
      updIsLoading (withSubmitting false)
  | HttpResponse false (inr errorData) =>
      let thrown := match errorData with
                    | Some m => orElse m submitFailed
                    | None => submitFailed
                    end in
      setError (Some (orElse thrown submitFailed)) ;;
      emit (ConsoleError "Erreur:") ;;
      updIsLoading (withSubmitting false)
  | HttpResponse _ (inl message) =>
      setError (Some (orElse message submitFailed)) ;;
      emit (ConsoleError "Erreur:") ;;
      updIsLoading (withSubmitting false)
  | NetworkFailure message =>
      setError (Some (orElse message submitFailed)) ;;
      emit (ConsoleError "Erreur:") ;;
      updIsLoading (withSubmitting false)
  end.

(** What a timer does when it fires. *)
Definition runTimer (p : Props) (a : TimerAction) : Cmd :=
  match a with
  | ResetAfterSuccess => setShowSuccessPopup false ;; resetForm p
  end.

(** ** The rest of the component *)

Definition setIsMobile (v : bool) : Cmd := fun st =>
  (mkState (currentStep st) (selectedDevice st) (selectedSubtype st)
     (selectedBrand st) (selectedRepairDoc st) (selectedServices st)
     (searchTerm st) (appointmentData st) v (brands st) (repairDocs st)
     (isLoading st) (error st) (showSuccessPopup st), []).

(** Time slots. *)
Definition timeSlots : list string :=
  [ "09:00"; "09:30"; "10:00"; "10:30"; "11:00"; "11:30";
    "14:00"; "14:30"; "15:00"; "15:30"; "16:00"; "16:30"; "17:00" ].

(** The [switch] of [fetchRepairDocs]; [None] is its [default:] branch. *)
Definition repairsEndpoint (id : string) : option string :=
  if String.eqb id "mobile" then Some "mobiles"
  else if String.eqb id "tablet" then Some "tablets"
  else if String.eqb id "laptop" then Some "laptops"
  else if String.eqb id "console" then Some "consoles"
  else None.

Definition repairsUrl (endpoint encodedBrand : string) : string :=
  (API_BASE_URL ++ "/repairs/" ++ endpoint ++ "?brand=" ++ encodedBrand)%string.

Section Builtins.

(** [encodeURIComponent] is the platform's; it throws ([None]) on a string
    that is not well-formed. [toLowerCase] is the platform's as well. *)
Variable encodeURIComponent : string -> option string.
Variable toLowerCase : string -> string.

(** [fetchRepairDocs] up to its [await fetch(...)]. The URL is built after the
    switch; a throw of either lands in the [catch]. *)
Definition fetchRepairDocs_start (brand : Brand) (sub : DeviceSubtype) : Cmd :=
  updIsLoading (withModels true) ;;
  setError None ;;
  match repairsEndpoint (sub_id sub) with
  | Some endpoint =>
      match encodeURIComponent (brand_name brand) with
      | Some encoded => emit (Fetch (repairsUrl endpoint encoded))
      | None =>
          setError (Some "Failed to load models") ;;
          emit (ConsoleError "URI malformed") ;;
          updIsLoading (withModels false)
      end
  | None =>
      setError (Some "Failed to load models") ;;
      emit (ConsoleError "Invalid subtype") ;;
      updIsLoading (withModels false)
  end.

(** [fetchRepairDocs] from the moment the request settles. *)
Definition fetchRepairDocs_resolve (r : Response (list RepairDocument)) : Cmd :=
  match r with
  | HttpResponse true (inr data) =>
      setRepairDocs data ;;
      updIsLoading (withModels false)
  | HttpResponse true (inl message) =>
      setError (Some "Failed to load models") ;;
      emit (ConsoleError message) ;;
      updIsLoading (withModels false)
  | HttpResponse false _ =>
      setError (Some "Failed to load models") ;;
      emit (ConsoleError "Failed to fetch models") ;;
      updIsLoading (withModels false)
  | NetworkFailure message =>
      setError (Some "Failed to load models") ;;
      emit (ConsoleError message) ;;
      updIsLoading (withModels false)
  end.

(** The effect with dependencies [selectedBrand, selectedSubtype]. *)
Definition repairsEffect : Cmd := fun st =>
  match selectedBrand st, selectedSubtype st with
  | Some brand, Some sub => fetchRepairDocs_start brand sub st
  | _, _ => skip st
  end.

(** [s.includes(sub)] *)
Fixpoint includes (s sub : string) : bool :=
  String.prefix sub s ||
  match s with
  | EmptyString => false
  | String _ rest => includes rest sub
  end.

(** Filter functions. *)
Definition filteredSubtypes (st : State) : list DeviceSubtype :=
  filter (fun subtype =>
            match selectedDevice st with
            | Some d => DeviceType_eqb (sub_parentType subtype) (dev_type d)
            | None => true
            end)
         deviceSubtypes.

Definition filteredBrands (st : State) : list Brand :=
  filter (fun brand =>
            includes (toLowerCase (brand_name brand)) (toLowerCase (searchTerm st)))
         (brands st).

Definition filteredRepairDocs (st : State) : list RepairDocument :=
  filter (fun doc =>
            includes (toLowerCase (doc_model doc)) (toLowerCase (searchTerm st)))
         (repairDocs st).

End Builtins.

(** Handle window resize. *)
Definition handleResize (innerWidth : Z) : Cmd :=
  setIsMobile (innerWidth <? 768).

(** The listener of the history effect, and the effect's own push. *)
Definition handlePopState (p : Props) : Cmd := fun st =>
  if 1 <? currentStep st then prevStep p st else skip st.

Definition historyEffect : Cmd := fun st =>
  emit (HistoryPush (currentStep st)) st.

(** The [onChange] handlers of the appointment form:
    [setAppointmentData({...appointmentData, field: value})]. *)
Inductive AppointmentField := FDate | FTime | FName | FFirstName | FEmail | FPhone.

Definition withField (f : AppointmentField) (v : string) (a : AppointmentData)
  : AppointmentData :=
  match f with
  | FDate => mkAppointment v (time a) (name a) (firstName a) (email a) (phone a)
  | FTime => mkAppointment (date a) v (name a) (firstName a) (email a) (phone a)
  | FName => mkAppointment (date a) (time a) v (firstName a) (email a) (phone a)
  | FFirstName => mkAppointment (date a) (time a) (name a) v (email a) (phone a)
  | FEmail => mkAppointment (date a) (time a) (name a) (firstName a) v (phone a)
  | FPhone => mkAppointment (date a) (time a) (name a) (firstName a) (email a) v
  end.

Definition editAppointment (f : AppointmentField) (v : string) : Cmd := fun st =>
  setAppointmentData (withField f v (appointmentData st)) st.

(** ** Sessions: events and runs *)

(** What is awaited: a request with the function that awaits it, or a timer. *)
Inductive Pending :=
| BrandsRequest (url : string)
| DocsRequest (url : string)
| SubmitRequest (body : Payload)
| Timeout (action : TimerAction) (ms : Z).

(** How an awaited thing ends. *)
Inductive Reply :=
| BrandsReply (r : Response (list Brand))
| DocsReply (r : Response (list RepairDocument))
| SubmitReply (r : Response (option string))
| Expired (action : TimerAction).

(** What happens to the component.  A tick-box hands the [_id] of its service
    to [toggleService]; a service without [_id] hands [undefined], which the
    list of strings that models the selection cannot hold: nothing stated of
    sessions below depends on what the selection holds. *)
Inductive Event :=
| ClickDevice (device : Device)
| ClickSubtype (subtype : DeviceSubtype)
| TypeSearch (text : string)
| ClickBrand (brand : Brand)
| ClickModel (repairDoc : RepairDocument)
| ClickService (serviceId : string)
| ClickNext
| ClickBack
| ClickHome
| PopState
| Resize (innerWidth : Z)
| Edit (field : AppointmentField) (value : string)
| Submit (now : string)
| Settle (i : nat) (reply : Reply).

(** The state, what is in flight, and everything done to the outside so far. *)
Record World := mkWorld {
  ui : State;
  pending : list Pending;
  trace : list Effect
}.

Definition subtype_eq_dec (a b : option DeviceSubtype) : {a = b} + {a <> b}.
Proof. repeat decide equality. Defined.

Definition brand_eq_dec (a b : option Brand) : {a = b} + {a <> b}.
Proof. repeat decide equality. Defined.

(** The requests among the effects of an [async] function, tagged with it. *)
Definition fetches (awaitedBy : string -> Pending) (effects : list Effect)
  : list Pending :=
  flat_map (fun e => match e with Fetch url => [awaitedBy url] | _ => [] end)
           effects.

(** The POST and the timer among the effects of a handler. *)
Definition armed (effects : list Effect) : list Pending :=
  flat_map (fun e => match e with
                     | Post _ body => [SubmitRequest body]
                     | SetTimeout action ms => [Timeout action ms]
                     | _ => []
                     end)
           effects.

Fixpoint removeNth {A} (i : nat) (l : list A) : list A :=
  match l, i with
  | [], _ => []
  | _ :: rest, O => rest
  | x :: rest, S j => x :: removeNth j rest
  end.

Definition answers (reply : Reply) (awaited : Pending) : Prop :=
  match reply, awaited with
  | BrandsReply _, BrandsRequest _ => True
  | DocsReply _, DocsRequest _ => True
  | SubmitReply _, SubmitRequest _ => True
  | Expired action, Timeout action' _ => action = action'
  | _, _ => False
  end.

Section Session.

Variable p : Props.
Variable encodeURIComponent : string -> option string.

(** The function an event runs when it comes from a control of the latest
    render. *)
Definition handler (e : Event) : Cmd :=
  match e with
  | ClickDevice device => selectDevice device
  | ClickSubtype subtype => selectSubtype subtype
  | TypeSearch text => setSearchTerm text
  | ClickBrand brand => selectBrand brand
  | ClickModel repairDoc => handleModelSelection repairDoc
  | ClickService serviceId => toggleService serviceId
  | ClickNext => nextStep
  | ClickBack => prevStep p
  | ClickHome => emit CallBackToHome
  | PopState => handlePopState p
  | Resize innerWidth => handleResize innerWidth
  | Edit field value => editAppointment field value
  | Submit now => handleSubmit_start now
  | Settle _ (BrandsReply r) => fetchBrands_resolve r
  | Settle _ (DocsReply r) => fetchRepairDocs_resolve r
  | Settle _ (SubmitReply r) => handleSubmit_resolve r
  | Settle _ (Expired action) => runTimer p action
  end.

(** The effects that run after the render that follows a handler: each runs
    when one of its dependencies differs from the render before.  React
    compares the dependencies by identity; they are compared by value here,
    and an effect that runs although the value is the same is a step of its
    own in the sessions below ([effectsAgain]). *)
Definition runEffects (before after : State) : State * list Effect * list Pending :=
  let subtypeChanged :=
    if subtype_eq_dec (selectedSubtype before) (selectedSubtype after)
    then false else true in
  let brandChanged :=
    if brand_eq_dec (selectedBrand before) (selectedBrand after)
    then false else true in
  let stepChanged := negb (currentStep before =? currentStep after) in
  let (s1, e1) := (if subtypeChanged then brandsEffect else skip) after in
  let (s2, e2) :=
    (if brandChanged || subtypeChanged
     then repairsEffect encodeURIComponent else skip) s1 in
  let (s3, e3) := (if stepChanged then historyEffect else skip) s2 in
  (s3, e1 ++ e2 ++ e3, fetches BrandsRequest e1 ++ fetches DocsRequest e2).

Definition consumed (e : Event) (l : list Pending) : list Pending :=
  match e with
  | Settle i _ => removeNth i l
  | _ => l
  end.

(** One event on the latest render: its handler, then the effects of the
    render it causes. *)
Definition fire (e : Event) (w : World) : World :=
  let (st1, effects) := handler e (ui w) in
  let '(st2, effects', requests) := runEffects (ui w) st1 in
  mkWorld st2
    (consumed e (pending w) ++ armed effects ++ requests)
    (trace w ++ effects ++ effects').

(** The component as mounted: the effects of the first render have run. *)
Definition mounted (innerWidth : Z) : World :=
  let st := fst (handleResize innerWidth (initialState p)) in
  mkWorld st [] [HistoryPush (currentStep st)].

(** A run given as the list of its events, each on the latest render. *)
Definition run (events : list Event) (w : World) : World :=
  fold_left (fun w e => fire e w) events w.

(** *** Controls of an earlier render

    The step panels sit in [<AnimatePresence mode="wait">]: a panel that
    leaves stays on the page, its controls live, until its exit animation
    ends; and the [popstate] listener is the one registered at the last change
    of step.  A control runs the handler of the render that drew it: what the
    handler reads from the component ([currentStep], [appointmentData], the
    selections, [totalPrice]) is what that render saw, while setters and
    updaters act on the state of the moment.  The functions below are the
    handlers with their render, [seen], made explicit. *)

Definition nextStepOf (seen : State) : Cmd :=
  if currentStep seen <? 6 then
    let newStep := currentStep seen + 1 in
    setCurrentStep newStep ;;
    setSearchTerm "" ;;
    emit (HistoryPush newStep)
  else skip.

Definition prevStepOf (seen : State) : Cmd :=
  if 1 <? currentStep seen then
    let newStep := currentStep seen - 1 in
    if (newStep =? 1) && isSome (deviceType p) && onBackToHome p then
      emit CallBackToHome
    else
      (if newStep =? 1 then
         setSelectedDevice None ;;
         setSelectedSubtype None ;;
         setSelectedBrand None ;;
         setSelectedRepairDoc None ;;
         setSelectedServices []
       else if newStep =? 2 then
         setSelectedSubtype None ;;
         setSelectedBrand None ;;
         setSelectedRepairDoc None ;;
         setSelectedServices []
       else if newStep =? 3 then
         setSelectedBrand None ;;
         setSelectedRepairDoc None ;;
         setSelectedServices []
       else if newStep =? 4 then
         setSelectedRepairDoc None ;;
         setSelectedServices []
       else if newStep =? 5 then
         setSelectedServices []
       else skip) ;;
      setCurrentStep newStep ;;
      setSearchTerm "" ;;
      emit (HistoryReplace newStep)
  else skip.

Definition handleSubmit_startOf (now : string) (seen : State) : Cmd :=
  emit PreventDefault ;;
  (if falsy (date (appointmentData seen)) || falsy (time (appointmentData seen))
      || falsy (name (appointmentData seen)) || falsy (email (appointmentData seen))
   then setError (Some "Veuillez remplir tous les champs obligatoires")
   else
     match selectedRepairDoc seen with
     | None => setError (Some "Aucun document de réparation sélectionné")
     | Some doc =>
         updIsLoading (withSubmitting true) ;;
         setError None ;;
         emit (Post appointmentsUrl (appointmentPayload now seen doc))
     end).

(** The function an event runs when it comes from a control of the render
    [seen].  The tiles of a render carry the entries of its lists; what
    settles runs the rest of its [async] function, which only uses setters. *)
Definition handlerOf (seen : State) (e : Event) : Cmd :=
  match e with
  | ClickDevice device => selectDevice device
  | ClickSubtype subtype => setSelectedSubtype (Some subtype) ;; nextStepOf seen
  | TypeSearch text => setSearchTerm text
  | ClickBrand brand => setSelectedBrand (Some brand) ;; nextStepOf seen
  | ClickModel repairDoc => setSelectedRepairDoc (Some repairDoc) ;; nextStepOf seen
  | ClickService serviceId => toggleService serviceId
  | ClickNext => nextStepOf seen
  | ClickBack => prevStepOf seen
  | ClickHome => emit CallBackToHome
  | PopState => if 1 <? currentStep seen then prevStepOf seen else skip
  | Resize innerWidth => handleResize innerWidth
  | Edit field value => setAppointmentData (withField field value (appointmentData seen))
  | Submit now => handleSubmit_startOf now seen
  | Settle _ (BrandsReply r) => fetchBrands_resolve r
  | Settle _ (DocsReply r) => fetchRepairDocs_resolve r
  | Settle _ (SubmitReply r) => handleSubmit_resolve r
  | Settle _ (Expired action) => runTimer p action
  end.

(** One event on the render [seen]. *)
Definition fireOf (seen : State) (e : Event) (w : World) : World :=
  let (st1, effects) := handlerOf seen e (ui w) in
  let '(st2, effects', requests) := runEffects (ui w) st1 in
  mkWorld st2
    (consumed e (pending w) ++ armed effects ++ requests)
    (trace w ++ effects ++ effects').

(** The loading effects run once more: the repair documents' (dependencies
    [selectedBrand, selectedSubtype]), and the brands' as well when the
    subtype is what React found changed. *)
Definition effectsAgain (brandsToo : bool) (w : World) : World :=
  let (s1, e1) := (if brandsToo then brandsEffect else skip) (ui w) in
  let (s2, e2) := repairsEffect encodeURIComponent s1 in
  mkWorld s2
    (pending w ++ fetches BrandsRequest e1 ++ fetches DocsRequest e2)
    (trace w ++ e1 ++ e2).

(** An upper bound on what the page lets through.  A device tile is drawn
    only without [deviceType] and shows an entry of [devices]; a subtype tile
    shows an entry of the render's [filteredSubtypes]; the time comes from the
    options of its [<select>]; the home button is there only with the
    callback; and what settles was awaited.  Which panel is on the page at the
    moment, and which of its buttons are disabled, is not narrowed down: any
    other event is taken to be possible at any time. *)
Definition possible (w : World) (seen : State) (e : Event) : Prop :=
  match e with
  | ClickDevice device => deviceType p = None /\ In device devices
  | ClickSubtype subtype => In subtype (filteredSubtypes seen)
  | ClickHome => onBackToHome p = true
  | Edit field value => field = FTime -> value = "" \/ In value timeSlots
  | Settle i reply =>
      exists awaited, nth_error (pending w) i = Some awaited /\ answers reply awaited
  | _ => True
  end.

(** The sessions of the component: where it stands, with the states it has
    rendered on the way, the latest first.  An event comes from a control of
    any of these renders.  A render that an update outside a batch puts in
    between either differs from one of the list only in cells that no handler
    reads (the flags, the error, the lists), or is replaced before an event
    can reach it. *)
Inductive InSession : World -> list State -> Prop :=
| session_mounted (innerWidth : Z) :
    InSession (mounted innerWidth) [ui (mounted innerWidth); initialState p]
| session_event (w : World) (renders : list State) (seen : State) (e : Event) :
    InSession w renders -> In seen renders -> possible w seen e ->
    InSession (fireOf seen e w)
              (ui (fireOf seen e w) :: fst (handlerOf seen e (ui w)) :: renders)
| session_effects (w : World) (renders : list State) (brandsToo : bool) :
    InSession w renders ->
    InSession (effectsAgain brandsToo w) (ui (effectsAgain brandsToo w) :: renders).

(** A session given as a script: each event with the age of the render it
    comes from, counted in renders back from the latest. *)
Definition playOne (w : World) (renders : list State) (age : nat) (e : Event)
  : World * list State :=
  let seen := nth age renders (ui w) in
  (fireOf seen e w,
   ui (fireOf seen e w) :: fst (handlerOf seen e (ui w)) :: renders).

Fixpoint play (script : list (nat * Event)) (w : World) (renders : list State)
  : World * list State :=
  match script with
  | [] => (w, renders)
  | (age, e) :: rest =>
      let (w', renders') := playOne w renders age e in
      play rest w' renders'
  end.

End Session.

End RepairBooking.

(** ** The product carousel *)

Module ProductCarousel.

Section Carousel.

(** The slide logic never looks inside a product. *)
Variable Product : Type.

Record State := mkState {
  currentIndex : Z;
  isAutoPlaying : bool;
  isTransitioning : bool;
  favorites : list string;
  products : list Product
}.

Definition itemsToShow : Z := 4.

(** The callbacks handed to [setTimeout]; each closes over [products.length]
    as it was when the button was pressed. *)
Inductive TimerAction :=
| Advance (len : Z)
| Retreat (len : Z)
| GoTo (index : Z).

(** JS [%] on integers truncates towards zero, as [Z.rem] does. *)
Definition nextIndex (len prev : Z) : Z := Z.rem (prev + itemsToShow) len.

Definition prevIndex (len prev : Z) : Z := Z.rem (prev - itemsToShow + len) len.

Definition setIsTransitioning (b : bool) (st : State) : State :=
  mkState (currentIndex st) (isAutoPlaying st) b (favorites st) (products st).

Definition updCurrentIndex (f : Z -> Z) (st : State) : State :=
  mkState (f (currentIndex st)) (isAutoPlaying st) (isTransitioning st)
    (favorites st) (products st).

Definition len (st : State) : Z := Z.of_nat (List.length (products st)).

(** A handler returns the new state and the timer it armed, if any. *)
Definition nextSlide (st : State) : State * option (TimerAction * Z) :=
  if isTransitioning st then (st, None)
  else (setIsTransitioning true st, Some (Advance (len st), 150)).

Definition prevSlide (st : State) : State * option (TimerAction * Z) :=
  if isTransitioning st then (st, None)
  else (setIsTransitioning true st, Some (Retreat (len st), 150)).

Definition goToSlide (index : Z) (st : State) : State * option (TimerAction * Z) :=
  if isTransitioning st then (st, None)
  else (setIsTransitioning true st, Some (GoTo index, 150)).

Definition runTimer (a : TimerAction) (st : State) : State :=
  match a with
  | Advance n => setIsTransitioning false (updCurrentIndex (nextIndex n) st)
  | Retreat n => setIsTransitioning false (updCurrentIndex (prevIndex n) st)
  | GoTo index =>
      setIsTransitioning false (updCurrentIndex (fun _ => index * itemsToShow) st)
  end.

(** A press of a button followed by the expiry of the timer it armed. *)
Definition settle (r : State * option (TimerAction * Z)) : State :=
  match r with
  | (st, Some (a, _)) => runTimer a st
  | (st, None) => st
  end.

Definition advance (st : State) : State := settle (nextSlide st).

Definition retreat (st : State) : State := settle (prevSlide st).

(** *** Favourites, autoplay, the dots and the loader *)

Definition setIsAutoPlaying (b : bool) (st : State) : State :=
  mkState (currentIndex st) b (isTransitioning st) (favorites st) (products st).

Definition toggleFavorite (productId : string) (st : State) : State :=
  mkState (currentIndex st) (isAutoPlaying st) (isTransitioning st)
    (if existsb (String.eqb productId) (favorites st)
     then filter (fun id => negb (String.eqb id productId)) (favorites st)
     else favorites st ++ [productId])
    (products st).

(** [Math.ceil(products.length / itemsToShow)]: the quotient of a length by
    four is exact, and its ceiling is this integer. *)
Definition pages (len : Z) : Z := (len + itemsToShow - 1) / itemsToShow.

(** The index the autoplay timer computes:
    [(prev + 1) % Math.ceil(products.length / itemsToShow) * itemsToShow]. *)
Definition autoIndex (len prev : Z) : Z :=
  Z.rem (prev + 1) (pages len) * itemsToShow.

(** The autoplay effect arms its interval only under this condition. *)
Definition autoPlays (st : State) : bool :=
  isAutoPlaying st && negb (isTransitioning st) && negb (len st =? 0).

(** One beat of the interval: it arms the timer that moves the index. *)
Definition autoTick (st : State) : State * option (Z * Z) :=
  if autoPlays st then (setIsTransitioning true st, Some (len st, 150))
  else (st, None).

Definition autoTimer (n : Z) (st : State) : State :=
  setIsTransitioning false (updCurrentIndex (autoIndex n) st).

(** The dot that is lit: [Math.floor(currentIndex / itemsToShow)]. *)
Definition activeDot (st : State) : Z := currentIndex st / itemsToShow.

(** [props.type] *)
Inductive Kind := mobile | laptop.

Definition endpoint (type : Kind) : string :=
  match type with
  | mobile => "https://rppe4wbr3k.execute-api.eu-west-3.amazonaws.com/api/products/mobile"
  | laptop => "https://rppe4wbr3k.execute-api.eu-west-3.amazonaws.com/api/products/laptop"
  end.

(** The carousel with the two cells of its loader. *)
Record Loader := mkLoader {
  slides : State;
  loading : bool;
  error : option string
}.

(** How the product request ends: [fetch] rejects, the response is not a
    success (its status and status text, as printed), the body does not
    yield a list, or the list arrives. *)
Inductive Fetched :=
| Rejected (message : string)
| NotOk (status statusText : string)
| BadBody (message : string)
| Listed (data : list Product).

Definition setProducts (l : list Product) (st : State) : State :=
  mkState (currentIndex st) (isAutoPlaying st) (isTransitioning st)
    (favorites st) l.

(** [fetchProducts] up to its [await]: the cells it sets and the URL it asks. *)
Definition fetchProducts_start (type : Kind) (l : Loader) : Loader * string :=
  (mkLoader (slides l) true None, endpoint type).

Definition failedWith (message : string) (l : Loader) : Loader :=
  mkLoader (setProducts [] (slides l)) false (Some message).

(** [fetchProducts] from the moment the request settles. *)
Definition fetchProducts_resolve (r : Fetched) (l : Loader) : Loader :=
  match r with
  | Listed data => mkLoader (setProducts data (slides l)) false (error l)
  | Rejected message => failedWith message l
  | NotOk status statusText =>
      failedWith ("Failed to fetch: " ++ status ++ " " ++ statusText)%string l
  | BadBody message => failedWith message l
  end.

(** What the component returns, by its early returns. *)
Inductive Panel :=
| Spinner
| ErrorPanel (message : string)
| EmptyPanel
| SlidesPanel.

Definition view (l : Loader) : Panel :=
  if loading l then Spinner
  else
    match error l with
    | Some message =>
        if String.eqb message "" then
          if len (slides l) =? 0 then EmptyPanel else SlidesPanel
        else ErrorPanel message
    | None => if len (slides l) =? 0 then EmptyPanel else SlidesPanel
    end.

End Carousel.

Arguments currentIndex {Product} s.
Arguments isTransitioning {Product} s.
Arguments products {Product} s.
Arguments len {Product} st.
Arguments advance {Product} st.
Arguments retreat {Product} st.

End ProductCarousel.

(** ** The image pager of the product detail overlay *)

Module ProductDetails.

Definition nextImage (len prev : Z) : Z := Z.rem (prev + 1) len.

Definition prevImage (len prev : Z) : Z := Z.rem (prev - 1 + len) len.

(** Use only the product's images, falling back to the main image. *)
Definition productImages (images : option (list string)) (image : string)
  : list string :=
  match images with
  | Some l => if (0 <? Z.of_nat (List.length l)) then l else [image]
  | None => [image]
  end.

End ProductDetails.

(** * Vocabulary of the properties *)

Import RepairBooking.

Local Open Scope cmd_scope.

(** ** Retreating one step *)

(** The selections that depend on one another. *)
Inductive Selection :=
| SelDevice | SelSubtype | SelBrand | SelRepairDoc | SelServices.

Definition cleared (s : Selection) (st : State) : Prop :=
  match s with
  | SelDevice => selectedDevice st = None
  | SelSubtype => selectedSubtype st = None
  | SelBrand => selectedBrand st = None
  | SelRepairDoc => selectedRepairDoc st = None
  | SelServices => selectedServices st = []
  end.

Definition kept (s : Selection) (st st' : State) : Prop :=
  match s with
  | SelDevice => selectedDevice st' = selectedDevice st
  | SelSubtype => selectedSubtype st' = selectedSubtype st
  | SelBrand => selectedBrand st' = selectedBrand st
  | SelRepairDoc => selectedRepairDoc st' = selectedRepairDoc st
  | SelServices => selectedServices st' = selectedServices st
  end.

(** The table of the specification: what a retreat from a given step clears. *)
Definition clearedOnRetreat (from : Z) : list Selection :=
  if from =? 2 then [SelDevice; SelSubtype; SelBrand; SelRepairDoc; SelServices]
  else if from =? 3 then [SelSubtype; SelBrand; SelRepairDoc; SelServices]
  else if from =? 4 then [SelBrand; SelRepairDoc; SelServices]
  else if from =? 5 then [SelRepairDoc; SelServices]
  else if from =? 6 then [SelServices]
  else [].

(** The cells of the state that are neither the step, nor a selection, nor the
    search filter. *)
Definition restUnchanged (st st' : State) : Prop :=
  appointmentData st' = appointmentData st /\
  isMobile st' = isMobile st /\
  brands st' = brands st /\
  repairDocs st' = repairDocs st /\
  isLoading st' = isLoading st /\
  error st' = error st /\
  showSuccessPopup st' = showSuccessPopup st.

(** A retreat as the table describes it, with [search] telling what the search
    filter is afterwards. *)
Definition retreatsByTable (search : State -> string) (p : Props) (st : State)
  : Prop :=
  let st' := fst (prevStep p st) in
  currentStep st' = currentStep st - 1 /\
  (forall s, In s (clearedOnRetreat (currentStep st)) -> cleared s st') /\
  (forall s, ~ In s (clearedOnRetreat (currentStep st)) -> kept s st st') /\
  searchTerm st' = search st /\
  restUnchanged st st'.

(** A retreat that touches nothing but the step and the selections of the table. *)
Definition retreatFrameAsStated : Props -> State -> Prop :=
  retreatsByTable searchTerm.

(** A retreat that, besides, empties the search filter. *)
Definition retreatFrame : Props -> State -> Prop :=
  retreatsByTable (fun _ => "").

(** A visitor without a fixed device picks the phone, then the tablet subtype,
    and types into the search box of the brand step. *)
Definition browsingBrands : State :=
  fst ((selectDevice (mkDevice "mobile" "Téléphone Mobile" mobile) ;;
        selectSubtype (mkSubtype "tablet" "Tablette" mobile) ;;
        setSearchTerm "sam")
       (initialState (mkProps None false))).

(** ** The total price *)

(** The cost a selected identifier stands for: that of the service it resolves
    to in the document, if any. *)
Definition resolves (doc : option RepairDocument) (serviceId : string) : bool :=
  isSome (findService doc serviceId).

Definition costOf (doc : option RepairDocument) (serviceId : string) : float :=
  match findService doc serviceId with
  | Some service => estimatedCost service
  | None => 0%float
  end.

(** The sum of a list of doubles, added one after the other from 0. *)
Definition sumLeft (l : list float) : float := fold_left PrimFloat.add l 0%float.

(** [c < 0] on doubles; false of both zeros and of NaN. *)
Definition belowZero (c : float) : bool := PrimFloat.ltb c 0%float.

(** No service of the document costs less than nothing. *)
Definition noCostBelowZero (doc : option RepairDocument) : Prop :=
  forall d service,
    doc = Some d -> In service (repairOptions d) ->
    belowZero (estimatedCost service) = false.

(** The sign bit of a double is clear, or the double is not a number. *)
Definition signClear (x : spec_float) : Prop :=
  match x with
  | S754_zero s | S754_infinity s | S754_finite s _ _ => s = false
  | S754_nan => True
  end.

Definition serviceWithCost (id : string) (cost : float) : RepairService :=
  mkService id cost "" None None None None (Some id).

(** A document with services [{id:"a",cost:50},{id:"b",cost:30}]. *)
Definition docAB : RepairDocument :=
  mkDoc "doc" "brand" "model"
    [serviceWithCost "a" 50%float; serviceWithCost "b" 30%float] None None.

#[local] Set Warnings "-inexact-float".

(** A document with services of 29.9, 39.9 and 69.9, and one with services of
    2^53 and 1. *)
Definition docXYZ : RepairDocument :=
  mkDoc "doc" "brand" "model"
    [ serviceWithCost "x" 29.9%float; serviceWithCost "y" 39.9%float;
      serviceWithCost "z" 69.9%float ] None None.

Definition docBig : RepairDocument :=
  mkDoc "doc" "brand" "model"
    [ serviceWithCost "big" 9007199254740992%float;
      serviceWithCost "one" 1%float ] None None.

(** The services a and c are selected on that document; c is not one of its
    services. *)
Definition selectedAC : State :=
  fst ((setSelectedRepairDoc (Some docAB) ;; setSelectedServices ["a"; "c"])
       (initialState (mkProps None false))).

(** ** Submission *)

(** What the validation of [handleSubmit] asks for. *)
Definition submittable (st : State) : Prop :=
  date (appointmentData st) <> "" /\
  time (appointmentData st) <> "" /\
  name (appointmentData st) <> "" /\
  email (appointmentData st) <> "" /\
  selectedRepairDoc st <> None.

Definition networkCalls (effects : list Effect) : list Effect :=
  filter isNetworkCall effects.

(** Between [st] and [st'] the error cell has become [msg]; every other cell
    is as it was. *)
Definition onlyErrorSet (msg : string) (st st' : State) : Prop :=
  error st' = Some msg /\
  currentStep st' = currentStep st /\
  selectedDevice st' = selectedDevice st /\
  selectedSubtype st' = selectedSubtype st /\
  selectedBrand st' = selectedBrand st /\
  selectedRepairDoc st' = selectedRepairDoc st /\
  selectedServices st' = selectedServices st /\
  searchTerm st' = searchTerm st /\
  appointmentData st' = appointmentData st /\
  isMobile st' = isMobile st /\
  brands st' = brands st /\
  repairDocs st' = repairDocs st /\
  isLoading st' = isLoading st /\
  showSuccessPopup st' = showSuccessPopup st.

Definition validationMessages : list string :=
  [ "Veuillez remplir tous les champs obligatoires";
    "Aucun document de réparation sélectionné" ].

(** A booking on the appointment step with everything filled in but the date. *)
Definition bookingWithoutDate : State :=
  fst ((selectDevice (mkDevice "mobile" "Téléphone Mobile" mobile) ;;
        selectSubtype (mkSubtype "mobile" "Téléphone Mobile" mobile) ;;
        selectBrand (mkBrand None "brand" None None None None) ;;
        handleModelSelection docAB ;;
        toggleService "a" ;;
        nextStep ;;
        setAppointmentData
          (mkAppointment "" "09:00" "Durand" "Anne" "anne@example.org" "0102030405"))
       (initialState (mkProps None false))).

(** ** Loading the brands *)

(** A load fails unless the response is a success whose body parses. *)
Definition failed {A} (r : Response A) : bool :=
  match r with
  | HttpResponse true (inr _) => false
  | _ => true
  end.

Definition validSubtypes : list string := ["mobile"; "tablet"; "laptop"; "console"].

Definition apple : Brand := mkBrand (Some "b1") "Apple" None None None None.

Definition dell : Brand := mkBrand (Some "b2") "Dell" None None None None.

Definition mobileSubtype : DeviceSubtype := mkSubtype "mobile" "Téléphone Mobile" mobile.

Definition laptopSubtype : DeviceSubtype := mkSubtype "laptop" "Ordinateur Portable" laptop.

Definition anyVisitor : Props := mkProps None false.

(** The phone brands have been loaded and are on display. *)
Definition showingPhoneBrands : State :=
  fst ((selectDevice (mkDevice "mobile" "Téléphone Mobile" mobile) ;;
        selectSubtype mobileSubtype ;;
        brandsEffect ;;
        fetchBrands_resolve (HttpResponse true (inr [apple])))
       (initialState anyVisitor)).

(** *** Requests in flight *)

(** The URLs requested by a run of handlers, in the order of their dispatch. *)
Definition requested (effects : list Effect) : list string :=
  flat_map (fun e => match e with Fetch url => [url] | _ => [] end) effects.

Definition BrandServer : Type := string -> Response (list Brand).

(** The brand requests settle one after the other, in the given order; each
    runs the rest of its [fetchBrands] on the state it then finds. *)
Fixpoint settleBrands (server : BrandServer) (order : list string) (st : State)
  : State :=
  match order with
  | [] => st
  | url :: rest => settleBrands server rest (fst (fetchBrands_resolve (server url) st))
  end.

(** The visitor picks the phone subtype and, before its brands arrive, goes
    back to the device step and picks the laptop and its laptop subtype. The
    brand effect runs after every change of the selected subtype. *)
Definition quickSubtypeChange : Cmd :=
  selectDevice (mkDevice "mobile" "Téléphone Mobile" mobile) ;;
  selectSubtype mobileSubtype ;; brandsEffect ;;
  prevStep anyVisitor ;; brandsEffect ;;
  prevStep anyVisitor ;;
  selectDevice (mkDevice "laptop" "Ordinateur Portable" laptop) ;;
  selectSubtype laptopSubtype ;; brandsEffect.

Definition afterQuickChange : State := fst (quickSubtypeChange (initialState anyVisitor)).

Definition inFlight : list string :=
  requested (snd (quickSubtypeChange (initialState anyVisitor))).

(** A server that answers the phone request with [dm] and the laptop request
    with [dl]. *)
Definition answering (dm dl : list Brand) : BrandServer := fun url =>
  if String.eqb url (brandsUrl "mobile") then HttpResponse true (inr dm)
  else if String.eqb url (brandsUrl "laptop") then HttpResponse true (inr dl)
  else HttpResponse false (inl "not found").

(** The brand list once both requests have settled in the given order. *)
Definition finalBrands (dm dl : list Brand) (order : list string) : list Brand :=
  brands (settleBrands (answering dm dl) order afterQuickChange).

(** ** Entering with a fixed device, and leaving *)



(** ** The carousel *)

Definition threeProducts : ProductCarousel.State string :=
  ProductCarousel.mkState string 2 true false [] ["p1"; "p2"; "p3"].

Definition firstOfThree : ProductCarousel.State string :=
  ProductCarousel.mkState string 0 true false [] ["p1"; "p2"; "p3"].

(** An index that addresses one of [len] products. *)
Definition inRange (len index : Z) : Prop := 0 <= index < len.

(** ** Sessions *)

(** The cells that hold the visitor's choices. *)
Definition choices (st : State) :=
  (currentStep st, selectedDevice st, selectedSubtype st, selectedBrand st,
   selectedRepairDoc st, selectedServices st, appointmentData st).

Definition timeIsASlot (st : State) : Prop :=
  time (appointmentData st) = "" \/ In (time (appointmentData st)) timeSlots.

(** What every render of a session has: a step of the wizard, a subtype of
    the table if any, and a time of the [<select>]. *)
Definition sound (st : State) : Prop :=
  1 <= currentStep st <= 6 /\
  (forall sub, selectedSubtype st = Some sub -> In sub deviceSubtypes) /\
  timeIsASlot st.

(** *** What is in flight *)

Definition isBrandsRequest (x : Pending) : bool :=
  match x with BrandsRequest _ => true | _ => false end.

Definition isDocsRequest (x : Pending) : bool :=
  match x with DocsRequest _ => true | _ => false end.

Definition isSubmitRequest (x : Pending) : bool :=
  match x with SubmitRequest _ => true | _ => false end.

Definition isTimeout (x : Pending) : bool :=
  match x with Timeout _ _ => true | _ => false end.

Definition count (kind : Pending -> bool) (l : list Pending) : nat :=
  List.length (filter kind l).

(** The busy flags and the confirmation against what is in flight: each is
    down when nothing of its kind is awaited. *)
Definition flagsFollowFlight (w : World) : Prop :=
  (count isBrandsRequest (pending w) = O ->
     loading_brands (isLoading (ui w)) = false) /\
  (count isDocsRequest (pending w) = O ->
     loading_models (isLoading (ui w)) = false) /\
  (count isSubmitRequest (pending w) = O ->
     loading_submitting (isLoading (ui w)) = false) /\
  (count isTimeout (pending w) = O -> showSuccessPopup (ui w) = false).

(** The callback is called only if there is one. *)
Definition callbackOnlyIfGiven (p : Props) (w : World) : Prop :=
  onBackToHome p = false -> ~ In CallBackToHome (trace w).

(** A POST as the page can send it: to the appointments endpoint, for one of
    the time slots, with a date, a name and an e-mail address. *)
Definition completeBooking (url : string) (body : Payload) : Prop :=
  url = "https://rppe4wbr3k.execute-api.eu-west-3.amazonaws.com/api/appointments" /\
  fst (pl_appointment body) <> "" /\
  In (snd (pl_appointment body)) timeSlots /\
  fst (fst (fst (pl_customer body))) <> "" /\
  snd (fst (pl_customer body)) <> "".

(** A script all of whose events are possible when they happen. *)
Fixpoint possibleAlong (p : Props) (encode : string -> option string)
  (script : list (nat * Event)) (w : World) (renders : list State) : Prop :=
  match script with
  | [] => True
  | (age, e) :: rest =>
      possible p w (nth age renders (ui w)) e /\
      possibleAlong p encode rest
        (fst (playOne p encode w renders age e))
        (snd (playOne p encode w renders age e))
  end.

(** *** A visit, for the examples *)

(** On lower-case text without reserved characters the platform's
    [toLowerCase] and [encodeURIComponent] give the text back. *)
Definition sameText (s : string) : string := s.

Definition sameEncoded (s : string) : option string := Some s.

Definition phone : Device := mkDevice "mobile" "Téléphone Mobile" mobile.

Definition nokia : Brand := mkBrand (Some "b3") "nokia" None None None None.

Definition nokia3310 : RepairDocument :=
  mkDoc "d1" "nokia" "3310"
    [serviceWithCost "a" 50%float; serviceWithCost "b" 30%float] None None.


(** A visitor goes through the six steps and fills in the form. *)
Definition visit : list Event :=
  [ ClickDevice phone;
    ClickSubtype mobileSubtype;
    Settle 0 (BrandsReply (HttpResponse true (inr [nokia])));
    ClickBrand nokia;
    Settle 0 (DocsReply (HttpResponse true (inr [nokia3310])));
    ClickModel nokia3310;
    ClickService "a";
    ClickNext;
    Edit FDate "2026-03-02";
    Edit FTime "09:30";
    Edit FName "Durand";
    Edit FEmail "anne@example.org" ].

Definition readyToSubmit : World :=
  run anyVisitor sameEncoded visit (mounted anyVisitor 1280).

(** The renders of the component as it is mounted. *)
Definition opening (p : Props) (innerWidth : Z) : list State :=
  [ui (mounted p innerWidth); initialState p].

(** Events on the latest render, as a script. *)
Definition latest (events : list Event) : list (nat * Event) :=
  map (pair O) events.

(** The same visitor then presses Retour and, while the appointment panel
    leaves the page, its submit button twice: the button belongs to the render
    of the filled-in form, two and then four renders back. *)
Definition submittingTwice : list (nat * Event) :=
  latest visit ++
  [ (O, ClickBack);
    (2%nat, Submit "2026-03-01T10:00:00.000Z");
    (4%nat, Submit "2026-03-01T10:00:01.000Z") ].

Definition afterSubmittingTwice : World * list State :=
  play anyVisitor sameEncoded submittingTwice
    (mounted anyVisitor 1280) (opening anyVisitor 1280).

(** The same visitor, two steps in: the subtype tiles are on display. *)
Definition choosingSubtype : World :=
  run anyVisitor sameEncoded [ClickDevice phone] (mounted anyVisitor 1280).

(** And four steps in: the brand tiles are on display. *)
Definition choosingBrand : World :=
  run anyVisitor sameEncoded
    [ ClickDevice phone; ClickSubtype mobileSubtype;
      Settle 0 (BrandsReply (HttpResponse true (inr [nokia]))) ]
    (mounted anyVisitor 1280).

(** *** A carousel of ten products, for the examples *)

Definition tenProducts : ProductCarousel.State string :=
  ProductCarousel.mkState string 4 true false []
    ["p1"; "p2"; "p3"; "p4"; "p5"; "p6"; "p7"; "p8"; "p9"; "p10"].

Definition freshLoader : ProductCarousel.Loader string :=
  ProductCarousel.mkLoader string
    (ProductCarousel.mkState string 0 true false [] []) true None.

(** * Properties of the booking wizard *)

(** ** Retreating one step *)

Lemma step_between_2_and_6 (n : Z) :
  2 <= n <= 6 -> n = 2 \/ n = 3 \/ n = 4 \/ n = 5 \/ n = 6.
Proof. lia. Qed.

Ltac split_selection :=
  let s := fresh "s" in
  let H := fresh "H" in
  intros s; destruct s; cbn; intros H;
  first
    [ reflexivity
    | exfalso; apply H; cbn; tauto
    | exfalso; repeat (destruct H as [H | H]; [discriminate H |]); exact H ].

(** C1 (as amended): from every step N with 2 <= N <= 6 (N > 2 when a fixed
    device type is supplied) [prevStep] lands on N-1, clears exactly the
    selections the table lists for that transition, keeps the selections the
    table does not list, empties the search filter, leaves every other cell of
    the state as it was, and replaces the current history entry. *)
Theorem prevStep_retreat_frame (p : Props) (st : State) :
  2 <= currentStep st <= 6 ->
  (deviceType p <> None -> 2 < currentStep st) ->
  retreatFrame p st /\
  snd (prevStep p st) = [HistoryReplace (currentStep st - 1)].
Proof.
  intros Hrange Hfixed.
  destruct st as [step dev sub br doc svcs search appt mob brs docs ld err pop].
  cbn [currentStep] in *.
  destruct p as [[t |] cb].
  - assert (Hgt : 2 < step) by (apply Hfixed; discriminate).
    assert (Hcases : step = 3 \/ step = 4 \/ step = 5 \/ step = 6) by lia.
    destruct Hcases as [-> | [-> | [-> | ->]]];
      (split; [| reflexivity]);
      unfold retreatFrame, retreatsByTable, restUnchanged; cbn;
      repeat split; split_selection.
  - destruct (step_between_2_and_6 step Hrange) as [-> | [-> | [-> | [-> | ->]]]];
      (split; [| reflexivity]);
      unfold retreatFrame, retreatsByTable, restUnchanged; cbn;
      repeat split; split_selection.
Qed.

Lemma prevStep_retreat_frame_witness :
  retreatFrame (mkProps None false) browsingBrands /\
  snd (prevStep (mkProps None false) browsingBrands) = [HistoryReplace 2].
Proof.
  apply (prevStep_retreat_frame (mkProps None false) browsingBrands).
  - vm_compute. split; discriminate.
  - intros H. exfalso. apply H. reflexivity.
Defined.

(** C1 (as stated) fails: on the brand step with "sam" in the search box the
    preconditions hold, and the retreat also empties the search filter, a cell
    the table does not list. *)
Lemma prevStep_retreat_clears_search :
  2 <= currentStep browsingBrands <= 6 /\
  deviceType (mkProps None false) = None /\
  searchTerm browsingBrands = "sam" /\
  searchTerm (fst (prevStep (mkProps None false) browsingBrands)) = "" /\
  ~ retreatFrameAsStated (mkProps None false) browsingBrands.
Proof.
  split; [vm_compute; split; discriminate |].
  split; [reflexivity |].
  split; [reflexivity |].
  split; [reflexivity |].
  intros (_ & _ & _ & Hsearch & _).
  vm_compute in Hsearch. discriminate Hsearch.
Qed.

(** ** The total price *)

Lemma totalPrice_from (doc : option RepairDocument) (services : list string) (acc : float) :
  fold_left (fun total serviceId => (total + costOf doc serviceId)%float) services acc
  = fold_left PrimFloat.add (map (costOf doc) services) acc.
Proof.
  revert acc.
  induction services as [| id rest IH]; intros acc; cbn; [reflexivity | apply IH].
Qed.

Lemma totalPriceOf_sum (services : list string) (doc : option RepairDocument) :
  totalPriceOf services doc = sumLeft (map (costOf doc) services).
Proof. unfold totalPriceOf, sumLeft. apply totalPrice_from. Qed.

Lemma unresolved_costs_nothing (doc : option RepairDocument) (serviceId : string) :
  resolves doc serviceId = false -> costOf doc serviceId = 0%float.
Proof.
  unfold resolves, costOf.
  destruct (findService doc serviceId); [discriminate | reflexivity].
Qed.

(** *** Adding doubles whose sign bit is clear *)

Lemma binary_round_aux_sign (prec emax m e : Z) (l : location) :
  signClear (binary_round_aux prec emax false m e l).
Proof.
  unfold binary_round_aux.
  destruct (shr_fexp prec emax m e l) as [mrs' e'].
  destruct (shr_fexp prec emax _ e' loc_Exact) as [mrs'' e''].
  destruct (shr_m mrs''); cbn; [reflexivity | | exact I].
  destruct (e'' <=? emax - prec); reflexivity.
Qed.

Lemma binary_round_sign (prec emax : Z) (m : positive) (e : Z) :
  signClear (binary_round prec emax false m e).
Proof.
  unfold binary_round.
  destruct (shl_align m e _) as [mz ez]. apply binary_round_aux_sign.
Qed.

Lemma SFadd_signClear (prec emax : Z) (x y : spec_float) :
  signClear x -> SFltb y (S754_zero false) = false ->
  signClear (SFadd prec emax x y).
Proof.
  intros Hx Hy.
  destruct x as [sx | sx | | sx mx ex]; destruct y as [sy | sy | | sy my ey];
    cbn in Hx; subst; cbn in Hy |- *; try exact I; try reflexivity;
    try (destruct sy; try discriminate; reflexivity).
  destruct sy; [discriminate |].
  cbn. apply binary_round_sign.
Qed.

Lemma add_signClear (x y : float) :
  signClear (Prim2SF x) -> belowZero y = false ->
  signClear (Prim2SF (x + y)%float).
Proof.
  intros Hx Hy. rewrite add_spec. apply SFadd_signClear; [exact Hx |].
  unfold belowZero in Hy. rewrite ltb_spec in Hy. exact Hy.
Qed.

(** Adding 0 to such a double gives it back (it is [-0 + 0] that is not [-0]). *)
Lemma add_zero_right (x : float) :
  signClear (Prim2SF x) -> (x + 0)%float = x.
Proof.
  intros H. apply Prim2SF_inj. rewrite add_spec.
  change (Prim2SF 0%float) with (S754_zero false).
  destruct (Prim2SF x) as [s | s | | s m e]; cbn in H |- *; subst; reflexivity.
Qed.

Lemma costOf_not_below_zero (doc : option RepairDocument) (serviceId : string) :
  noCostBelowZero doc -> belowZero (costOf doc serviceId) = false.
Proof.
  intros Hcosts. unfold costOf, findService.
  destruct doc as [d |]; [| reflexivity].
  destruct (find (hasId serviceId) (repairOptions d)) as [service |] eqn:Hfind;
    [| reflexivity].
  apply find_some in Hfind. destruct Hfind as [Hin _].
  exact (Hcosts d service eq_refl Hin).
Qed.

Lemma sum_of_resolved
  (doc : option RepairDocument) (services : list string) (acc : float) :
  noCostBelowZero doc -> signClear (Prim2SF acc) ->
  fold_left PrimFloat.add (map (costOf doc) services) acc
  = fold_left PrimFloat.add
      (map (costOf doc) (filter (resolves doc) services)) acc.
Proof.
  intros Hcosts. revert acc.
  induction services as [| id rest IH]; intros acc Hacc; cbn; [reflexivity |].
  destruct (resolves doc id) eqn:Hres; cbn.
  - apply IH. apply add_signClear; [exact Hacc |].
    now apply costOf_not_below_zero.
  - rewrite (unresolved_costs_nothing _ _ Hres).
    rewrite (add_zero_right _ Hacc). now apply IH.
Qed.

(** C2: the total price is the sum of what the selected identifiers stand
    for, added as doubles from 0 in the order of the selection: the cost of
    the service an identifier resolves to in the selected document, and zero
    for an identifier that does not resolve.  When no service of the document
    costs less than nothing, leaving the unresolved identifiers out gives the
    same double.  For the document with services a (50) and b (30):
    selection a totals 50, selection a, c totals 50, and the empty selection
    totals 0. *)
Theorem totalPrice_sums_resolved (st : State) :
  totalPrice st
  = sumLeft (map (costOf (selectedRepairDoc st)) (selectedServices st))
  /\ (noCostBelowZero (selectedRepairDoc st) ->
      totalPrice st
      = sumLeft (map (costOf (selectedRepairDoc st))
                   (filter (resolves (selectedRepairDoc st)) (selectedServices st))))
  /\ (forall serviceId,
        resolves (selectedRepairDoc st) serviceId = false ->
        costOf (selectedRepairDoc st) serviceId = 0%float)
  /\ (forall doc service serviceId,
        selectedRepairDoc st = Some doc ->
        find (hasId serviceId) (repairOptions doc) = Some service ->
        costOf (selectedRepairDoc st) serviceId = estimatedCost service)
  /\ totalPriceOf ["a"] (Some docAB) = 50%float
  /\ totalPriceOf ["a"; "c"] (Some docAB) = 50%float
  /\ totalPriceOf [] (Some docAB) = 0%float.
Proof.
  assert (Hsum : totalPrice st
                 = sumLeft (map (costOf (selectedRepairDoc st)) (selectedServices st))).
  { unfold totalPrice. apply totalPriceOf_sum. }
  split; [exact Hsum |].
  split.
  { intros Hcosts. rewrite Hsum. unfold sumLeft.
    apply sum_of_resolved; [exact Hcosts | reflexivity]. }
  split; [intros serviceId; apply unresolved_costs_nothing |].
  split.
  { intros doc service serviceId Hdoc Hfind.
    unfold costOf, findService. rewrite Hdoc, Hfind. reflexivity. }
  repeat split; reflexivity.
Qed.

Lemma totalPrice_sums_resolved_witness :
  noCostBelowZero (selectedRepairDoc selectedAC) /\
  totalPrice selectedAC = sumLeft [50%float].
Proof.
  assert (Hcosts : noCostBelowZero (selectedRepairDoc selectedAC)).
  { intros d service Hd Hin. injection Hd as <-.
    destruct Hin as [<- | [<- | []]]; reflexivity. }
  split; [exact Hcosts |].
  destruct (totalPrice_sums_resolved selectedAC) as (_ & Hresolved & _).
  exact (Hresolved Hcosts).
Defined.

(** ** Submission *)

Lemma falsy_iff (s : string) : falsy s = true <-> s = "".
Proof. unfold falsy. apply String.eqb_eq. Qed.

Lemma not_falsy_iff (s : string) : falsy s = false <-> s <> "".
Proof. unfold falsy. apply String.eqb_neq. Qed.

Lemma submittable_dec (st : State) :
  (falsy (date (appointmentData st)) || falsy (time (appointmentData st))
   || falsy (name (appointmentData st)) || falsy (email (appointmentData st)))
  = false /\ selectedRepairDoc st <> None
  <-> submittable st.
Proof.
  unfold submittable.
  rewrite !orb_false_iff, !not_falsy_iff.
  tauto.
Qed.

(** C3: [handleSubmit] issues a network call only if the date, the time, the
    name and the email are non-empty and a repair document is selected; it
    then raises the busy flag, clears the error and issues one POST, to the
    appointments endpoint.  Otherwise it issues nothing, and the state is as
    it was but for the error cell, which holds one message: that of the
    required fields when one of the four is empty (so with an empty date,
    whatever else is filled in), that of the missing repair document when
    only the document is missing. *)
Theorem handleSubmit_validates_first (now : string) (st : State) :
  let st' := fst (handleSubmit_start now st) in
  let effects := snd (handleSubmit_start now st) in
  ((exists url body, In (Post url body) effects) \/
   (exists url, In (Fetch url) effects) -> submittable st) /\
  (submittable st ->
     exists doc, selectedRepairDoc st = Some doc /\
       effects
       = [ PreventDefault;
           Post "https://rppe4wbr3k.execute-api.eu-west-3.amazonaws.com/api/appointments"
                (appointmentPayload now st doc) ] /\
       loading_submitting (isLoading st') = true /\
       error st' = None) /\
  (~ submittable st ->
     effects = [PreventDefault] /\
     exists msg, In msg validationMessages /\ onlyErrorSet msg st st') /\
  (date (appointmentData st) = "" \/ time (appointmentData st) = "" \/
   name (appointmentData st) = "" \/ email (appointmentData st) = "" ->
     effects = [PreventDefault] /\
     onlyErrorSet "Veuillez remplir tous les champs obligatoires" st st') /\
  (date (appointmentData st) <> "" -> time (appointmentData st) <> "" ->
   name (appointmentData st) <> "" -> email (appointmentData st) <> "" ->
   selectedRepairDoc st = None ->
     effects = [PreventDefault] /\
     onlyErrorSet "Aucun document de réparation sélectionné" st st').
Proof.
  cbv zeta.
  pose proof (submittable_dec st) as Hdec.
  unfold handleSubmit_start, andThen, emit.
  destruct (falsy (date (appointmentData st)) || falsy (time (appointmentData st))
            || falsy (name (appointmentData st)) || falsy (email (appointmentData st)))
    eqn:Hfields.
  - assert (Hno : ~ submittable st).
    { intros Hs. apply Hdec in Hs. destruct Hs as [Hs _]. discriminate Hs. }
    assert (Hsome : ~ (date (appointmentData st) <> "" /\ time (appointmentData st) <> "" /\
                       name (appointmentData st) <> "" /\ email (appointmentData st) <> "")).
    { rewrite <- !not_falsy_iff. intros (H1 & H2 & H3 & H4).
      rewrite H1, H2, H3, H4 in Hfields. discriminate Hfields. }
    cbn. split; [| split; [| split; [| split]]].
    + intros [(url & body & [H | []]) | (url & [H | []])]; discriminate H.
    + intros Hs. contradiction.
    + intros _. split; [reflexivity |].
      exists "Veuillez remplir tous les champs obligatoires".
      split; [left; reflexivity | unfold onlyErrorSet; cbn; tauto].
    + intros _. split; [reflexivity | unfold onlyErrorSet; cbn; tauto].
    + intros H1 H2 H3 H4 _. exfalso. apply Hsome. tauto.
  - assert (Hall : date (appointmentData st) <> "" /\ time (appointmentData st) <> "" /\
                   name (appointmentData st) <> "" /\ email (appointmentData st) <> "").
    { rewrite <- !not_falsy_iff. rewrite !orb_false_iff in Hfields. tauto. }
    destruct (selectedRepairDoc st) as [doc |] eqn:Hdoc.
    + assert (Hyes : submittable st).
      { apply Hdec. split; [reflexivity | discriminate]. }
      cbn. split; [| split; [| split; [| split]]].
      * intros _. exact Hyes.
      * intros _. exists doc. repeat split.
      * intros Hno. contradiction.
      * intros Hempty. exfalso. tauto.
      * intros _ _ _ _ Hnone. discriminate Hnone.
    + assert (Hno : ~ submittable st).
      { intros Hs. apply Hdec in Hs. destruct Hs as [_ Hs]. now apply Hs. }
      cbn. split; [| split; [| split; [| split]]].
      * intros [(url & body & [H | []]) | (url & [H | []])]; discriminate H.
      * intros Hs. contradiction.
      * intros _. split; [reflexivity |].
        exists "Aucun document de réparation sélectionné".
        split; [right; left; reflexivity | unfold onlyErrorSet; cbn; tauto].
      * intros Hempty. exfalso. tauto.
      * intros _ _ _ _ _. split; [reflexivity | unfold onlyErrorSet; cbn; tauto].
Qed.

Lemma handleSubmit_validates_first_witness :
  snd (handleSubmit_start "2026-01-01T00:00:00.000Z" bookingWithoutDate) = [PreventDefault] /\
  onlyErrorSet "Veuillez remplir tous les champs obligatoires" bookingWithoutDate
    (fst (handleSubmit_start "2026-01-01T00:00:00.000Z" bookingWithoutDate)).
Proof.
  destruct (handleSubmit_validates_first "2026-01-01T00:00:00.000Z" bookingWithoutDate)
    as (_ & _ & _ & Hempty & _).
  apply Hempty. left. reflexivity.
Defined.

(** ** Loading the brands *)

Lemma fetchBrands_resolve_failed (r : Response (list Brand)) (st : State) :
  failed r = true ->
  fst (fetchBrands_resolve r st)
  = fst ((setError (Some "Failed to load brands") ;; updIsLoading (withBrands false)) st).
Proof.
  destruct r as [message | [|] [message | data]]; cbn; intros H;
    try reflexivity; discriminate H.
Qed.

(** C4 (as amended): when a brand load fails (the request is rejected, the
    response is not a success, or its body does not parse) the loader sets the
    error "Failed to load brands", lowers its busy flag, and leaves the brand
    list as it was: the prior list is preserved, not emptied. *)
Theorem fetchBrands_failure_keeps_brands (r : Response (list Brand)) (st : State) :
  failed r = true ->
  let st' := fst (fetchBrands_resolve r st) in
  error st' = Some "Failed to load brands" /\
  brands st' = brands st /\
  loading_brands (isLoading st') = false /\
  networkCalls (snd (fetchBrands_resolve r st)) = [].
Proof.
  intros Hfail. cbv zeta.
  rewrite (fetchBrands_resolve_failed r st Hfail).
  repeat split; try reflexivity.
  destruct r as [message | [|] [message | data]]; reflexivity.
Qed.

Lemma fetchBrands_failure_keeps_brands_witness :
  let st' := fst (fetchBrands_resolve (NetworkFailure "Failed to fetch") showingPhoneBrands) in
  error st' = Some "Failed to load brands" /\
  brands st' = [apple] /\
  loading_brands (isLoading st') = false /\
  networkCalls (snd (fetchBrands_resolve (NetworkFailure "Failed to fetch") showingPhoneBrands)) = [].
Proof.
  apply (fetchBrands_failure_keeps_brands (NetworkFailure "Failed to fetch") showingPhoneBrands).
  reflexivity.
Defined.

(** C4 (as stated) fails: with the phone brands on display, a load that comes
    back with a non-success response, or that is rejected, sets the error and
    leaves the list non-empty. *)
Lemma fetchBrands_failure_does_not_empty :
  brands showingPhoneBrands = [apple] /\
  (let st' := fst (fetchBrands_resolve (HttpResponse false (inl "")) showingPhoneBrands) in
   error st' = Some "Failed to load brands" /\ brands st' <> []) /\
  (let st' := fst (fetchBrands_resolve (NetworkFailure "Failed to fetch") showingPhoneBrands) in
   error st' = Some "Failed to load brands" /\ brands st' <> []).
Proof.
  repeat split; try reflexivity; discriminate.
Qed.

(** The identifiers the loader accepts are those of the subtype table. *)
Lemma validSubtypes_are_the_subtypes :
  validSubtypes = map sub_id deviceSubtypes.
Proof. reflexivity. Qed.

Lemma brandCategory_valid (id : string) :
  In id validSubtypes -> brandCategory id = Some id.
Proof.
  unfold validSubtypes.
  intros [<- | [<- | [<- | [<- | []]]]]; reflexivity.
Qed.

Lemma brandCategory_invalid (id : string) :
  ~ In id validSubtypes -> brandCategory id = None.
Proof.
  unfold validSubtypes, brandCategory. cbn. intros Hnot.
  destruct (String.eqb_spec id "mobile"); [exfalso; apply Hnot; subst; tauto |].
  destruct (String.eqb_spec id "tablet"); [exfalso; apply Hnot; subst; tauto |].
  destruct (String.eqb_spec id "laptop"); [exfalso; apply Hnot; subst; tauto |].
  destruct (String.eqb_spec id "console"); [exfalso; apply Hnot; subst; tauto |].
  reflexivity.
Qed.

(** C5: for a subtype identifier among mobile, tablet, laptop and console the
    brand loader takes the identifier itself as the category key and requests
    [/brands/] followed by that key, raising its busy flag; for any other
    identifier it fails with "Invalid subtype" without requesting anything,
    reports "Failed to load brands", and leaves the brand list alone. *)
Theorem fetchBrands_maps_subtype (sub : DeviceSubtype) (st : State) :
  let st' := fst (fetchBrands_start sub st) in
  let effects := snd (fetchBrands_start sub st) in
  (In (sub_id sub) validSubtypes ->
     brandCategory (sub_id sub) = Some (sub_id sub) /\
     effects
     = [Fetch ("https://rppe4wbr3k.execute-api.eu-west-3.amazonaws.com/api/brands/"
               ++ sub_id sub)%string] /\
     loading_brands (isLoading st') = true /\
     error st' = None) /\
  (~ In (sub_id sub) validSubtypes ->
     brandCategory (sub_id sub) = None /\
     effects = [ConsoleError "Invalid subtype"] /\
     (forall url, ~ In (Fetch url) effects) /\
     error st' = Some "Failed to load brands" /\
     loading_brands (isLoading st') = false /\
     brands st' = brands st).
Proof.
  cbv zeta. unfold fetchBrands_start, andThen. cbn.
  split.
  - intros Hin.
    rewrite (brandCategory_valid _ Hin). cbn.
    repeat split.
  - intros Hnot. rewrite (brandCategory_invalid _ Hnot). cbn.
    repeat split.
    intros url [H | []]. discriminate H.
Qed.

Lemma fetchBrands_maps_subtype_witness :
  brandCategory "tablet" = Some "tablet" /\
  snd (fetchBrands_start (mkSubtype "tablet" "Tablette" mobile) (initialState anyVisitor))
  = [Fetch "https://rppe4wbr3k.execute-api.eu-west-3.amazonaws.com/api/brands/tablet"].
Proof.
  destruct (fetchBrands_maps_subtype
              (mkSubtype "tablet" "Tablette" mobile) (initialState anyVisitor))
    as [Hvalid _].
  destruct Hvalid as (Hcategory & Hfetch & _); [cbn; tauto |].
  split; [exact Hcategory | exact Hfetch].
Defined.

(** *** Two requests in flight *)

Lemma settleBrands_app (server : BrandServer) (first second : list string) (st : State) :
  settleBrands server (first ++ second) st
  = settleBrands server second (settleBrands server first st).
Proof.
  revert st. induction first as [| url rest IH]; intros st; cbn; [reflexivity |].
  apply IH.
Qed.

Lemma fetchBrands_resolve_selection (r : Response (list Brand)) (st : State) :
  selectedSubtype (fst (fetchBrands_resolve r st)) = selectedSubtype st.
Proof. destruct r as [message | [|] [message | data]]; reflexivity. Qed.

Lemma settleBrands_selection (server : BrandServer) (order : list string) (st : State) :
  selectedSubtype (settleBrands server order st) = selectedSubtype st.
Proof.
  revert st. induction order as [| url rest IH]; intros st; cbn; [reflexivity |].
  rewrite IH. apply fetchBrands_resolve_selection.
Qed.

(** No request is tagged or cancelled: the response that settles last writes
    the list, whatever was requested since. *)
Lemma settleBrands_last_wins
  (server : BrandServer) (earlier : list string) (url : string)
  (data : list Brand) (st : State) :
  server url = HttpResponse true (inr data) ->
  brands (settleBrands server (earlier ++ [url]) st) = data.
Proof.
  intros Hok. rewrite settleBrands_app. cbn. now rewrite Hok.
Qed.

Lemma inFlight_is :
  inFlight = [brandsUrl "mobile"; brandsUrl "laptop"].
Proof. reflexivity. Qed.

(** C8 (as amended): after the subtype has changed from mobile to laptop with
    both brand requests still in flight, the selected subtype stays laptop and
    the final brand list is that of whichever response settles last: the
    laptop brands when the phone response comes first, the phone brands when
    the laptop response comes first. *)
Theorem brands_last_response_wins (dm dl : list Brand) (order : list string) :
  Permutation inFlight order ->
  selectedSubtype (settleBrands (answering dm dl) order afterQuickChange)
  = Some laptopSubtype /\
  answering dm dl (last order "") = HttpResponse true (inr (finalBrands dm dl order)) /\
  ((order = [brandsUrl "mobile"; brandsUrl "laptop"] /\ finalBrands dm dl order = dl) \/
   (order = [brandsUrl "laptop"; brandsUrl "mobile"] /\ finalBrands dm dl order = dm)).
Proof.
  rewrite inFlight_is. intros Hperm.
  split; [rewrite settleBrands_selection; reflexivity |].
  unfold finalBrands.
  destruct (Permutation_length_2_inv Hperm) as [-> | ->].
  - pose proof (settleBrands_last_wins (answering dm dl) [brandsUrl "mobile"]
                  (brandsUrl "laptop") dl afterQuickChange eq_refl) as Hlast.
    change ([brandsUrl "mobile"] ++ [brandsUrl "laptop"])
      with [brandsUrl "mobile"; brandsUrl "laptop"] in Hlast.
    rewrite Hlast.
    split; [reflexivity | left; split; reflexivity].
  - pose proof (settleBrands_last_wins (answering dm dl) [brandsUrl "laptop"]
                  (brandsUrl "mobile") dm afterQuickChange eq_refl) as Hlast.
    change ([brandsUrl "laptop"] ++ [brandsUrl "mobile"])
      with [brandsUrl "laptop"; brandsUrl "mobile"] in Hlast.
    rewrite Hlast.
    split; [reflexivity | right; split; reflexivity].
Qed.

Lemma brands_last_response_wins_witness :
  let order := [brandsUrl "mobile"; brandsUrl "laptop"] in
  Permutation inFlight order /\
  selectedSubtype (settleBrands (answering [apple] [dell]) order afterQuickChange)
  = Some laptopSubtype /\
  answering [apple] [dell] (last order "")
  = HttpResponse true (inr (finalBrands [apple] [dell] order)) /\
  ((order = [brandsUrl "mobile"; brandsUrl "laptop"]
    /\ finalBrands [apple] [dell] order = [dell]) \/
   (order = [brandsUrl "laptop"; brandsUrl "mobile"]
    /\ finalBrands [apple] [dell] order = [apple])).
Proof.
  cbv zeta.
  assert (Hperm : Permutation inFlight [brandsUrl "mobile"; brandsUrl "laptop"])
    by (rewrite inFlight_is; apply Permutation_refl).
  split; [exact Hperm |].
  exact (brands_last_response_wins [apple] [dell]
           [brandsUrl "mobile"; brandsUrl "laptop"] Hperm).
Defined.

(** C8 (as stated) fails: when the laptop response settles before the phone
    response, the selected subtype is laptop and the brand list ends up
    holding the phone brands. *)
Lemma brands_stale_response_overwrites :
  Permutation inFlight [brandsUrl "laptop"; brandsUrl "mobile"] /\
  selectedSubtype
    (settleBrands (answering [apple] [dell])
       [brandsUrl "laptop"; brandsUrl "mobile"] afterQuickChange)
  = Some laptopSubtype /\
  answering [apple] [dell] (brandsUrl "laptop") = HttpResponse true (inr [dell]) /\
  finalBrands [apple] [dell] [brandsUrl "laptop"; brandsUrl "mobile"] = [apple] /\
  finalBrands [apple] [dell] [brandsUrl "laptop"; brandsUrl "mobile"] <> [dell].
Proof.
  split; [rewrite inFlight_is; apply perm_swap |].
  split; [reflexivity |].
  split; [reflexivity |].
  split; [reflexivity |].
  vm_compute. discriminate.
Qed.

(** ** Toggling a service *)

Lemma includes_In (s : string) (l : list string) :
  existsb (String.eqb s) l = true <-> In s l.
Proof.
  rewrite existsb_exists. split.
  - intros (x & Hx & Heq). apply String.eqb_eq in Heq. now subst.
  - intros Hin. exists s. split; [exact Hin | apply String.eqb_refl].
Qed.

Lemma includes_not_In (s : string) (l : list string) :
  existsb (String.eqb s) l = false <-> ~ In s l.
Proof.
  rewrite <- includes_In. destruct (existsb (String.eqb s) l); split;
    intros H; try reflexivity; try discriminate; try (exfalso; now apply H).
Qed.

Lemma without_absent (s : string) (l : list string) :
  ~ In s l -> filter (fun id => negb (String.eqb id s)) l = l.
Proof.
  induction l as [| x rest IH]; cbn; intros Hnot; [reflexivity |].
  destruct (String.eqb_spec x s) as [-> | Hne]; cbn.
  - exfalso. apply Hnot. now left.
  - rewrite IH; [reflexivity | tauto].
Qed.

Lemma without_removes (s : string) (l : list string) :
  ~ In s (filter (fun id => negb (String.eqb id s)) l).
Proof.
  rewrite filter_In. intros [_ Hne].
  rewrite String.eqb_refl in Hne. discriminate Hne.
Qed.

Lemma without_then_append (s : string) (l : list string) :
  NoDup l -> In s l ->
  Permutation (filter (fun id => negb (String.eqb id s)) l ++ [s]) l.
Proof.
  induction 1 as [| x rest Hx Hnodup IH]; cbn; intros Hin; [contradiction |].
  destruct (String.eqb_spec x s) as [-> | Hne]; cbn.
  - rewrite (without_absent s rest Hx).
    symmetry. apply Permutation_cons_append.
  - apply perm_skip. apply IH.
    destruct Hin as [Heq | Hin]; [contradiction | exact Hin].
Qed.

Lemma toggled_present (s : string) (l : list string) :
  In s l -> toggled s l = filter (fun id => negb (String.eqb id s)) l.
Proof.
  intros Hin. unfold toggled.
  now rewrite (proj2 (includes_In s l) Hin).
Qed.

Lemma toggled_absent (s : string) (l : list string) :
  ~ In s l -> toggled s l = l ++ [s].
Proof.
  intros Hnot. unfold toggled.
  now rewrite (proj2 (includes_not_In s l) Hnot).
Qed.

Lemma toggled_NoDup (s : string) (l : list string) :
  NoDup l -> NoDup (toggled s l).
Proof.
  intros Hnodup.
  destruct (in_dec string_dec s l) as [Hin | Hnot].
  - rewrite (toggled_present s l Hin). now apply NoDup_filter.
  - rewrite (toggled_absent s l Hnot).
    apply (Permutation_NoDup (Permutation_cons_append l s)).
    now constructor.
Qed.

(** C9 (as amended): on a duplicate-free selection, toggling an identifier
    removes it if it is present and appends it if it is absent; the result is
    again duplicate-free; toggling the same identifier twice gives back the
    same identifiers (a permutation of the original list), and the original
    list itself when the identifier was absent. *)
Theorem toggleService_twice (s : string) (st : State) :
  NoDup (selectedServices st) ->
  let once := selectedServices (fst (toggleService s st)) in
  let twice := selectedServices (fst (toggleService s (fst (toggleService s st)))) in
  (In s (selectedServices st) ->
     once = filter (fun id => negb (String.eqb id s)) (selectedServices st)
     /\ ~ In s once) /\
  (~ In s (selectedServices st) -> once = selectedServices st ++ [s]) /\
  NoDup once /\
  NoDup twice /\
  Permutation twice (selectedServices st) /\
  (~ In s (selectedServices st) -> twice = selectedServices st).
Proof.
  intros Hnodup. cbn.
  set (l := selectedServices st) in *.
  split; [| split; [| split; [| split; [| split]]]].
  - intros Hin. rewrite (toggled_present s l Hin).
    split; [reflexivity | apply without_removes].
  - apply toggled_absent.
  - now apply toggled_NoDup.
  - now apply toggled_NoDup, toggled_NoDup.
  - destruct (in_dec string_dec s l) as [Hin | Hnot].
    + rewrite (toggled_present s l Hin).
      rewrite (toggled_absent s _ (without_removes s l)).
      now apply without_then_append.
    + rewrite (toggled_absent s l Hnot).
      rewrite toggled_present by (apply in_or_app; right; now left).
      rewrite filter_app, (without_absent s l Hnot). cbn.
      rewrite String.eqb_refl. cbn. now rewrite app_nil_r.
  - intros Hnot.
    rewrite (toggled_absent s l Hnot).
    rewrite toggled_present by (apply in_or_app; right; now left).
    rewrite filter_app, (without_absent s l Hnot). cbn.
    rewrite String.eqb_refl. cbn. now rewrite app_nil_r.
Qed.

Lemma toggleService_twice_witness :
  let st := fst (toggleService "a" (initialState anyVisitor)) in
  NoDup (selectedServices st) /\
  NoDup (selectedServices (fst (toggleService "b" st))) /\
  Permutation (selectedServices (fst (toggleService "b" (fst (toggleService "b" st)))))
    (selectedServices st).
Proof.
  cbv zeta.
  assert (Hnodup : NoDup (selectedServices (fst (toggleService "a" (initialState anyVisitor))))).
  { cbn. constructor; [intros [] | constructor]. }
  split; [exact Hnodup |].
  destruct (toggleService_twice "b" (fst (toggleService "a" (initialState anyVisitor))) Hnodup)
    as (_ & _ & Honce & _ & Hperm & _).
  split; [exact Honce | exact Hperm].
Defined.

(** C9 (as stated) fails: with a and b selected, in that order, toggling a
    twice leaves b, a: the identifier comes back at the end of the list. *)
Lemma toggleService_twice_reorders :
  let st := fst ((toggleService "a" ;; toggleService "b") (initialState anyVisitor)) in
  selectedServices st = ["a"; "b"] /\
  NoDup (selectedServices st) /\
  selectedServices (fst ((toggleService "a" ;; toggleService "a") st)) = ["b"; "a"] /\
  selectedServices (fst ((toggleService "a" ;; toggleService "a") st)) <> selectedServices st.
Proof.
  cbv zeta.
  split; [reflexivity |].
  split.
  - cbn. constructor.
    + intros [H | []]. discriminate H.
    + constructor; [intros [] | constructor].
  - split; [reflexivity |]. cbn. discriminate.
Qed.

(** ** After a successful submission *)




(** ** Entering with a fixed device, and leaving *)




(** * Properties of the carousel *)

Section Wraparound.

(** Paging by [k] over [n] items, forwards as [(i + k) % n] and backwards as
    [(i - k + n) % n]. *)
Variables k n : Z.
Hypothesis k_nonneg : 0 <= k.
Hypothesis page_fits : k <= n.
Hypothesis nonempty : 0 < n.

Lemma forward_in_range (i : Z) : 0 <= i < n -> 0 <= Z.rem (i + k) n < n.
Proof.
  intros Hi. rewrite Z.rem_mod_nonneg by lia.
  apply Z.mod_pos_bound. lia.
Qed.

Lemma backward_in_range (i : Z) : 0 <= i < n -> 0 <= Z.rem (i - k + n) n < n.
Proof.
  intros Hi. rewrite Z.rem_mod_nonneg by lia.
  apply Z.mod_pos_bound. lia.
Qed.

Lemma forward_then_backward (i : Z) :
  0 <= i < n -> Z.rem (Z.rem (i + k) n - k + n) n = i.
Proof.
  intros Hi.
  pose proof (forward_in_range i Hi) as Hfwd.
  rewrite (Z.rem_mod_nonneg (i + k) n) in * by lia.
  rewrite Z.rem_mod_nonneg by lia.
  replace ((i + k) mod n - k + n) with ((i + k) mod n + (n - k)) by lia.
  rewrite Zplus_mod_idemp_l.
  replace (i + k + (n - k)) with (i + 1 * n) by lia.
  rewrite Z.mod_add by lia.
  apply Z.mod_small. lia.
Qed.

Lemma backward_then_forward (i : Z) :
  0 <= i < n -> Z.rem (Z.rem (i - k + n) n + k) n = i.
Proof.
  intros Hi.
  pose proof (backward_in_range i Hi) as Hbwd.
  rewrite (Z.rem_mod_nonneg (i - k + n) n) in * by lia.
  rewrite Z.rem_mod_nonneg by lia.
  rewrite Zplus_mod_idemp_l.
  replace (i - k + n + k) with (i + 1 * n) by lia.
  rewrite Z.mod_add by lia.
  apply Z.mod_small. lia.
Qed.

End Wraparound.

(** With at least [itemsToShow] products the two buttons undo one another and
    keep the index among the products. *)
Lemma carousel_wraps_when_page_fits (len i : Z) :
  ProductCarousel.itemsToShow <= len -> inRange len i ->
  inRange len (ProductCarousel.nextIndex len i) /\
  inRange len (ProductCarousel.prevIndex len i) /\
  ProductCarousel.prevIndex len (ProductCarousel.nextIndex len i) = i /\
  ProductCarousel.nextIndex len (ProductCarousel.prevIndex len i) = i.
Proof.
  unfold ProductCarousel.itemsToShow, ProductCarousel.nextIndex,
    ProductCarousel.prevIndex, ProductCarousel.itemsToShow, inRange.
  intros Hfit Hi.
  repeat split;
    first [ apply (forward_in_range 4 len); lia
          | apply (backward_in_range 4 len); lia
          | apply (forward_then_backward 4 len); lia
          | apply (backward_then_forward 4 len); lia ].
Qed.

(** The image pager of the detail overlay moves by one, and one always fits. *)
Lemma pager_wraps (len i : Z) :
  inRange len i ->
  inRange len (ProductDetails.nextImage len i) /\
  inRange len (ProductDetails.prevImage len i) /\
  ProductDetails.prevImage len (ProductDetails.nextImage len i) = i /\
  ProductDetails.nextImage len (ProductDetails.prevImage len i) = i.
Proof.
  unfold ProductDetails.nextImage, ProductDetails.prevImage, inRange.
  intros Hi.
  repeat split;
    first [ apply (forward_in_range 1 len); lia
          | apply (backward_in_range 1 len); lia
          | apply (forward_then_backward 1 len); lia
          | apply (backward_then_forward 1 len); lia ].
Qed.

(** C10 fails on the code, at three products. From index 2 the next button
    gives index 0 and the previous button then gives -1, not 2; from index 0
    the previous button alone gives -1, which addresses no product: adding
    the length once before [%] does not undo a step of four when there are
    fewer than four products. *)
Theorem carousel_retreat_leaves_range :
  ProductCarousel.len threeProducts = 3 /\
  inRange 3 (ProductCarousel.currentIndex threeProducts) /\
  ProductCarousel.currentIndex (ProductCarousel.advance threeProducts) = 0 /\
  ProductCarousel.currentIndex
    (ProductCarousel.retreat (ProductCarousel.advance threeProducts)) = -1 /\
  ProductCarousel.currentIndex
    (ProductCarousel.retreat (ProductCarousel.advance threeProducts))
  <> ProductCarousel.currentIndex threeProducts /\
  inRange 3 (ProductCarousel.currentIndex firstOfThree) /\
  ProductCarousel.currentIndex (ProductCarousel.retreat firstOfThree) = -1 /\
  ~ inRange 3 (ProductCarousel.currentIndex (ProductCarousel.retreat firstOfThree)).
Proof.
  unfold inRange.
  repeat split; try reflexivity; try discriminate; cbn; lia.
Qed.

(** * Sessions of the booking wizard *)

(** ** What leaves the choices alone *)

Lemma fetchBrands_start_choices (sub : DeviceSubtype) (st : State) :
  choices (fst (fetchBrands_start sub st)) = choices st.
Proof.
  unfold fetchBrands_start.
  destruct (brandCategory (sub_id sub)); reflexivity.
Qed.

Lemma brandsEffect_choices (st : State) :
  choices (fst (brandsEffect st)) = choices st.
Proof.
  unfold brandsEffect.
  destruct (selectedSubtype st); [apply fetchBrands_start_choices | reflexivity].
Qed.

Lemma fetchRepairDocs_start_choices
  (encode : string -> option string) (brand : Brand) (sub : DeviceSubtype) (st : State) :
  choices (fst (fetchRepairDocs_start encode brand sub st)) = choices st.
Proof.
  unfold fetchRepairDocs_start.
  destruct (repairsEndpoint (sub_id sub)); [| reflexivity].
  destruct (encode (brand_name brand)); reflexivity.
Qed.

Lemma repairsEffect_choices (encode : string -> option string) (st : State) :
  choices (fst (repairsEffect encode st)) = choices st.
Proof.
  unfold repairsEffect.
  destruct (selectedBrand st); [| reflexivity].
  destruct (selectedSubtype st); [apply fetchRepairDocs_start_choices | reflexivity].
Qed.

Lemma fetchBrands_resolve_choices (r : Response (list Brand)) (st : State) :
  choices (fst (fetchBrands_resolve r st)) = choices st.
Proof. destruct r as [message | [|] [message | data]]; reflexivity. Qed.

Lemma fetchRepairDocs_resolve_choices (r : Response (list RepairDocument)) (st : State) :
  choices (fst (fetchRepairDocs_resolve r st)) = choices st.
Proof. destruct r as [message | [|] [message | data]]; reflexivity. Qed.

Lemma handleSubmit_start_choices (now : string) (st : State) :
  choices (fst (handleSubmit_start now st)) = choices st.
Proof.
  unfold handleSubmit_start, andThen.
  destruct (falsy (date (appointmentData st)) || falsy (time (appointmentData st))
            || falsy (name (appointmentData st)) || falsy (email (appointmentData st)));
    [reflexivity |].
  destruct (selectedRepairDoc st); reflexivity.
Qed.

Lemma handleSubmit_resolve_choices (r : Response (option string)) (st : State) :
  choices (fst (handleSubmit_resolve r st)) = choices st.
Proof. destruct r as [message | [|] [message | [m |]]]; reflexivity. Qed.

(** The effects after a render start requests and raise flags; they leave the
    choices, the lists and the search filter alone. *)
Lemma runEffects_choices
  (encode : string -> option string) (before after : State) :
  choices (fst (fst (runEffects encode before after))) = choices after.
Proof.
  unfold runEffects.
  destruct (brandsEffect after) as [b eb] eqn:Hb.
  destruct (repairsEffect encode after) as [r er] eqn:Hr.
  destruct (repairsEffect encode b) as [rb erb] eqn:Hrb.
  pose proof (brandsEffect_choices after) as Cb. rewrite Hb in Cb.
  pose proof (repairsEffect_choices encode after) as Cr. rewrite Hr in Cr.
  pose proof (repairsEffect_choices encode b) as Crb. rewrite Hrb in Crb.
  cbn [fst] in *.
  destruct (subtype_eq_dec (selectedSubtype before) (selectedSubtype after));
    destruct (brand_eq_dec (selectedBrand before) (selectedBrand after));
    destruct (negb (currentStep before =? currentStep after));
    cbn [orb skip historyEffect emit fst snd];
    rewrite ?Hb, ?Hr, ?Hrb; cbn [fst snd]; congruence.
Qed.

Lemma count_app (kind : Pending -> bool) (l1 l2 : list Pending) :
  count kind (l1 ++ l2) = (count kind l1 + count kind l2)%nat.
Proof. unfold count. now rewrite filter_app, length_app. Qed.

Lemma count_removeNth (kind : Pending -> bool) (i : nat) (l : list Pending) (x : Pending) :
  nth_error l i = Some x ->
  count kind l = ((if kind x then 1 else 0) + count kind (removeNth i l))%nat.
Proof.
  unfold count. revert i.
  induction l as [| y rest IH]; intros [| j]; cbn; try discriminate.
  - intros [= ->]. destruct (kind x); reflexivity.
  - intros Hnth. pose proof (IH j Hnth) as Hrest.
    destruct (kind y), (kind x); cbn in *; lia.
Qed.

Lemma count_fetches_brands (effects : list Effect) :
  count isDocsRequest (fetches BrandsRequest effects) = O /\
  count isSubmitRequest (fetches BrandsRequest effects) = O /\
  count isTimeout (fetches BrandsRequest effects) = O.
Proof.
  unfold count, fetches.
  induction effects as [| e rest IH]; [repeat split |].
  destruct e; cbn; exact IH.
Qed.

Lemma count_fetches_docs (effects : list Effect) :
  count isBrandsRequest (fetches DocsRequest effects) = O /\
  count isSubmitRequest (fetches DocsRequest effects) = O /\
  count isTimeout (fetches DocsRequest effects) = O.
Proof.
  unfold count, fetches.
  induction effects as [| e rest IH]; [repeat split |].
  destruct e; cbn; exact IH.
Qed.

(** The brand effect touches no flag but its own, which it raises only with a
    request. *)
Lemma brandsEffect_flags (st : State) :
  let s := fst (brandsEffect st) in
  let e := snd (brandsEffect st) in
  loading_models (isLoading s) = loading_models (isLoading st) /\
  loading_submitting (isLoading s) = loading_submitting (isLoading st) /\
  showSuccessPopup s = showSuccessPopup st /\
  armed e = [] /\
  ~ In CallBackToHome e /\
  (count isBrandsRequest (fetches BrandsRequest e) = O ->
   loading_brands (isLoading s) = loading_brands (isLoading st)
   \/ loading_brands (isLoading s) = false).
Proof.
  unfold brandsEffect, fetchBrands_start.
  destruct (selectedSubtype st) as [sub |]; cbn.
  - destruct (brandCategory (sub_id sub)); cbn;
      repeat split; try tauto; try discriminate;
      intros H; intuition discriminate.
  - repeat split; tauto.
Qed.

Lemma repairsEffect_flags (encode : string -> option string) (st : State) :
  let s := fst (repairsEffect encode st) in
  let e := snd (repairsEffect encode st) in
  loading_brands (isLoading s) = loading_brands (isLoading st) /\
  loading_submitting (isLoading s) = loading_submitting (isLoading st) /\
  showSuccessPopup s = showSuccessPopup st /\
  armed e = [] /\
  ~ In CallBackToHome e /\
  (count isDocsRequest (fetches DocsRequest e) = O ->
   loading_models (isLoading s) = loading_models (isLoading st)
   \/ loading_models (isLoading s) = false).
Proof.
  unfold repairsEffect, fetchRepairDocs_start.
  destruct (selectedBrand st) as [brand |]; [| cbn; repeat split; tauto].
  destruct (selectedSubtype st) as [sub |]; [| cbn; repeat split; tauto].
  destruct (repairsEndpoint (sub_id sub)); cbn;
    [destruct (encode (brand_name brand)); cbn |];
    repeat split; try tauto; try discriminate;
    intros H; intuition discriminate.
Qed.

Lemma count_nil (kind : Pending -> bool) : count kind [] = O.
Proof. reflexivity. Qed.

Lemma runEffects_flags (encode : string -> option string) (before after : State) :
  let s := fst (fst (runEffects encode before after)) in
  let e := snd (fst (runEffects encode before after)) in
  let requests := snd (runEffects encode before after) in
  loading_submitting (isLoading s) = loading_submitting (isLoading after) /\
  showSuccessPopup s = showSuccessPopup after /\
  ~ In CallBackToHome e /\
  count isSubmitRequest requests = O /\
  count isTimeout requests = O /\
  (count isBrandsRequest requests = O ->
   loading_brands (isLoading s) = loading_brands (isLoading after)
   \/ loading_brands (isLoading s) = false) /\
  (count isDocsRequest requests = O ->
   loading_models (isLoading s) = loading_models (isLoading after)
   \/ loading_models (isLoading s) = false).
Proof.
  unfold runEffects.
  pose proof (brandsEffect_flags after) as Hb.
  pose proof (repairsEffect_flags encode after) as Hr.
  pose proof (repairsEffect_flags encode (fst (brandsEffect after))) as Hrb.
  destruct (brandsEffect after) as [b eb] eqn:Eb.
  destruct (repairsEffect encode after) as [r er] eqn:Er.
  cbn [fst snd] in *.
  destruct (repairsEffect encode b) as [rb erb] eqn:Erb.
  cbn [fst snd] in *.
  pose proof (count_fetches_brands eb) as (Hb1 & Hb2 & Hb3).
  pose proof (count_fetches_docs er) as (Hr1 & Hr2 & Hr3).
  pose proof (count_fetches_docs erb) as (Hrb1 & Hrb2 & Hrb3).
  destruct Hb as (Bm & Bs & Bp & Ba & Bc & Bf).
  destruct Hr as (Rm & Rs & Rp & Ra & Rc & Rf).
  destruct Hrb as (RBm & RBs & RBp & RBa & RBc & RBf).
  destruct (subtype_eq_dec (selectedSubtype before) (selectedSubtype after));
    destruct (brand_eq_dec (selectedBrand before) (selectedBrand after));
    destruct (negb (currentStep before =? currentStep after));
    cbn [orb skip historyEffect emit fst snd app fetches flat_map];
    rewrite ?Eb, ?Er, ?Erb;
    cbn [orb skip historyEffect emit fst snd app fetches flat_map];
    rewrite ?app_nil_r, ?count_app, ?count_nil;
    repeat split; try congruence; try lia;
    try (rewrite ?in_app_iff; cbn [In]; intuition discriminate);
    try (intros Hzero; left; congruence).
  all: try (intros Hzero;
            assert (Hz1 : count isBrandsRequest (fetches BrandsRequest eb) = O) by lia;
            destruct (Bf Hz1) as [Hsame | Hdown]; [left | right]; congruence).
  all: try (intros Hzero;
            assert (Hz2 : count isDocsRequest (fetches DocsRequest er) = O) by lia;
            destruct (Rf Hz2) as [Hsame | Hdown]; [left | right]; congruence).
  all: try (intros Hzero;
            assert (Hz3 : count isDocsRequest (fetches DocsRequest erb) = O) by lia;
            destruct (RBf Hz3) as [Hsame | Hdown]; [left | right]; congruence).
Qed.

Ltac branches :=
  repeat match goal with
         | |- context [if ?c then _ else _] => destruct c
         end.

Lemma sound_choices (st st' : State) :
  choices st = choices st' -> sound st -> sound st'.
Proof.
  destruct st, st'. unfold choices, sound, timeIsASlot. cbn.
  intros Heq. injection Heq as -> -> -> -> -> -> ->.
  exact (fun H => H).
Qed.

(** ** The handlers of a render *)

(** On the latest render the handlers are the functions of the component. *)
Lemma handlerOf_latest (p : Props) (e : Event) (st : State) :
  handlerOf p st e st = handler p e st.
Proof.
  destruct e as [| | | | | | | | | | | | | i reply]; cbn [handlerOf handler];
    try reflexivity.
  - unfold selectSubtype, nextStep, nextStepOf, andThen. cbn.
    destruct (currentStep st <? 6); reflexivity.
  - unfold selectBrand, nextStep, nextStepOf, andThen. cbn.
    destruct (currentStep st <? 6); reflexivity.
  - unfold handleModelSelection, nextStep, nextStepOf, andThen. cbn.
    destruct (currentStep st <? 6); reflexivity.
  - unfold nextStep, nextStepOf. destruct (currentStep st <? 6); reflexivity.
  - unfold prevStep, prevStepOf. branches; reflexivity.
  - unfold handlePopState, prevStep, prevStepOf. branches; reflexivity.
Qed.

Lemma fireOf_latest
  (p : Props) (encode : string -> option string) (e : Event) (w : World) :
  fireOf p encode (ui w) e w = fire p encode e w.
Proof. unfold fireOf, fire. now rewrite handlerOf_latest. Qed.

Ltac open_states seen st :=
  destruct seen as [step0 dev0 sub0 br0 doc0 svcs0 search0 appt0 mob0 brs0 docs0 ld0 err0 pop0];
  destruct st as [step dev sub br doc svcs search appt mob brs docs ld err pop];
  unfold sound, timeIsASlot in *;
  cbn [currentStep selectedDevice selectedSubtype selectedBrand selectedRepairDoc
       selectedServices appointmentData searchTerm brands repairDocs isLoading
       error showSuccessPopup isMobile] in *.

Ltac by_cases :=
  repeat match goal with
         | |- context [if ?c then _ else _] => destruct c eqn:?
         end.

Ltac to_arith :=
  repeat match goal with
         | H : (_ <? _) = true |- _ => apply Z.ltb_lt in H
         | H : (_ <? _) = false |- _ => apply Z.ltb_ge in H
         | H : (_ =? _) = true |- _ => apply Z.eqb_eq in H
         | H : (_ =? _) = false |- _ => apply Z.eqb_neq in H
         end.

Ltac close_sound :=
  cbn -[deviceSubtypes timeSlots In];
  repeat match goal with
         | |- _ /\ _ => split
         | |- forall _, _ => intro
         end;
  first [ lia | discriminate | assumption
        | match goal with
          | Hs : forall sub, ?x = Some sub -> In sub deviceSubtypes |- In _ deviceSubtypes =>
              apply Hs; assumption
          end
        | tauto | idtac ].

(** A handler takes a sound state to a sound state, whichever sound render
    its control belongs to. *)
Lemma handlerOf_sound (p : Props) (w : World) (seen st : State) (e : Event) :
  sound seen -> sound st -> possible p w seen e ->
  sound (fst (handlerOf p seen e st)).
Proof.
  intros Hseen Hst Hposs.
  open_states seen st.
  destruct Hseen as (Hstep0 & Hsub0 & Htime0).
  destruct Hst as (Hstep & Hsub & Htime).
  destruct e as [device | subtype | text | brand | repairDoc | serviceId
                 | | | | | innerWidth | field value | now | i reply];
    cbn [handlerOf possible] in *.
  - (* ClickDevice *) close_sound.
  - (* ClickSubtype *)
    unfold filteredSubtypes in Hposs. apply filter_In in Hposs. destruct Hposs as [Hin _].
    unfold nextStepOf, andThen. cbn -[deviceSubtypes timeSlots In]. by_cases; to_arith; close_sound;
      match goal with H : Some _ = Some _ |- _ => injection H as <-; exact Hin end.
  - (* TypeSearch *) close_sound.
  - (* ClickBrand *)
    unfold nextStepOf, andThen. cbn -[deviceSubtypes timeSlots In]. by_cases; to_arith; close_sound.
  - (* ClickModel *)
    unfold nextStepOf, andThen. cbn -[deviceSubtypes timeSlots In]. by_cases; to_arith; close_sound.
  - (* ClickService *) close_sound.
  - (* ClickNext *)
    unfold nextStepOf. cbn -[deviceSubtypes timeSlots In]. by_cases; to_arith; close_sound.
  - (* ClickBack *)
    unfold prevStepOf. cbn -[deviceSubtypes timeSlots In]. by_cases; to_arith; close_sound.
  - (* ClickHome *) close_sound.
  - (* PopState *)
    unfold prevStepOf. cbn -[deviceSubtypes timeSlots In]. by_cases; to_arith; close_sound.
  - (* Resize *) close_sound.
  - (* Edit *)
    destruct field; cbn -[deviceSubtypes timeSlots In]; close_sound.
  - (* Submit *)
    unfold handleSubmit_startOf, andThen. cbn -[deviceSubtypes timeSlots In].
    destruct (falsy (date appt0) || falsy (time appt0) || falsy (name appt0)
              || falsy (email appt0)); [close_sound |].
    destruct doc0; close_sound.
  - (* Settle *)
    destruct reply as [r | r | r | action].
    + destruct r as [message | [|] [message | data]]; close_sound.
    + destruct r as [message | [|] [message | data]]; close_sound.
    + destruct r as [message | [|] [message | [m |]]]; close_sound.
    + destruct action. cbn -[deviceSubtypes timeSlots In]. destruct (deviceType p); close_sound.
Qed.

(** Only the submission and the settlements touch a flag or arm anything. *)
Lemma handlerOf_flags (p : Props) (seen : State) (e : Event) (st : State) :
  let s := fst (handlerOf p seen e st) in
  let effects := snd (handlerOf p seen e st) in
  match e with
  | Submit _ =>
      loading_brands (isLoading s) = loading_brands (isLoading st) /\
      loading_models (isLoading s) = loading_models (isLoading st) /\
      showSuccessPopup s = showSuccessPopup st /\
      ((loading_submitting (isLoading s) = loading_submitting (isLoading st)
        /\ armed effects = [])
       \/ (loading_submitting (isLoading s) = true
           /\ exists body, armed effects = [SubmitRequest body]))
  | Settle _ (BrandsReply _) =>
      loading_brands (isLoading s) = false /\
      loading_models (isLoading s) = loading_models (isLoading st) /\
      loading_submitting (isLoading s) = loading_submitting (isLoading st) /\
      showSuccessPopup s = showSuccessPopup st /\
      armed effects = []
  | Settle _ (DocsReply _) =>
      loading_brands (isLoading s) = loading_brands (isLoading st) /\
      loading_models (isLoading s) = false /\
      loading_submitting (isLoading s) = loading_submitting (isLoading st) /\
      showSuccessPopup s = showSuccessPopup st /\
      armed effects = []
  | Settle _ (SubmitReply _) =>
      loading_brands (isLoading s) = loading_brands (isLoading st) /\
      loading_models (isLoading s) = loading_models (isLoading st) /\
      loading_submitting (isLoading s) = false /\
      ((showSuccessPopup s = showSuccessPopup st /\ armed effects = [])
       \/ armed effects = [Timeout ResetAfterSuccess 3000])
  | Settle _ (Expired _) =>
      isLoading s = isLoading st /\
      showSuccessPopup s = false /\
      armed effects = []
  | _ =>
      isLoading s = isLoading st /\
      showSuccessPopup s = showSuccessPopup st /\
      armed effects = []
  end.
Proof.
  destruct e; cbn [handlerOf]; try (cbn; repeat split; reflexivity).
  - (* ClickSubtype *)
    unfold nextStepOf, andThen. cbn. branches; cbn; repeat split; reflexivity.
  - (* ClickBrand *)
    unfold nextStepOf, andThen. cbn. branches; cbn; repeat split; reflexivity.
  - (* ClickModel *)
    unfold nextStepOf, andThen. cbn. branches; cbn; repeat split; reflexivity.
  - (* ClickNext *)
    unfold nextStepOf. branches; cbn; repeat split; reflexivity.
  - (* ClickBack *)
    unfold prevStepOf. branches; cbn; repeat split; reflexivity.
  - (* PopState *)
    unfold prevStepOf. branches; cbn; repeat split; reflexivity.
  - (* Submit *)
    unfold handleSubmit_startOf, andThen. cbn.
    destruct (falsy (date (appointmentData seen)) || falsy (time (appointmentData seen))
              || falsy (name (appointmentData seen)) || falsy (email (appointmentData seen)));
      [cbn; repeat split; left; split; reflexivity |].
    destruct (selectedRepairDoc seen); cbn; repeat split;
      [right; split; [reflexivity | eexists; reflexivity]
      | left; split; reflexivity].
  - (* Settle *)
    destruct reply as [r | r | r | action].
    + destruct r as [message | [|] [message | data]]; cbn; repeat split; reflexivity.
    + destruct r as [message | [|] [message | data]]; cbn; repeat split; reflexivity.
    + destruct r as [message | [|] [message | [m |]]]; cbn; repeat split;
        first [ left; split; reflexivity | right; reflexivity ].
    + destruct action. cbn. destruct (deviceType p); cbn; repeat split; reflexivity.
Qed.

Lemma handlerOf_callback (p : Props) (seen : State) (e : Event) (st : State) :
  In CallBackToHome (snd (handlerOf p seen e st)) ->
  e = ClickHome \/ onBackToHome p = true.
Proof.
  destruct e; cbn [handlerOf]; try (cbn; intuition discriminate).
  - unfold nextStepOf, andThen. cbn. branches; cbn; intuition discriminate.
  - unfold nextStepOf, andThen. cbn. branches; cbn; intuition discriminate.
  - unfold nextStepOf, andThen. cbn. branches; cbn; intuition discriminate.
  - unfold nextStepOf. branches; cbn; intuition discriminate.
  - unfold prevStepOf.
    destruct (1 <? currentStep seen); [| cbn; tauto].
    destruct ((currentStep seen - 1 =? 1) && isSome (deviceType p) && onBackToHome p) eqn:Hcb.
    + intros _. right. rewrite !andb_true_iff in Hcb. tauto.
    + branches; cbn; intuition discriminate.
  - unfold prevStepOf.
    destruct (1 <? currentStep seen); [| cbn; tauto].
    destruct ((currentStep seen - 1 =? 1) && isSome (deviceType p) && onBackToHome p) eqn:Hcb.
    + intros _. right. rewrite !andb_true_iff in Hcb. tauto.
    + branches; cbn; intuition discriminate.
  - unfold handleSubmit_startOf, andThen. cbn.
    destruct (falsy (date (appointmentData seen)) || falsy (time (appointmentData seen))
              || falsy (name (appointmentData seen)) || falsy (email (appointmentData seen)));
      [cbn; intuition discriminate |].
    destruct (selectedRepairDoc seen); cbn; intuition discriminate.
  - destruct reply as [r | r | r | action].
    + destruct r as [message | [|] [message | data]]; cbn; intuition discriminate.
    + destruct r as [message | [|] [message | data]]; cbn; intuition discriminate.
    + destruct r as [message | [|] [message | [m |]]]; cbn; intuition discriminate.
    + destruct action. cbn. destruct (deviceType p); cbn; intuition discriminate.
Qed.

(** A POST comes from the submission only, and carries what the render of
    its form held. *)
Lemma handlerOf_posts
  (p : Props) (seen : State) (e : Event) (st : State) (url : string) (body : Payload) :
  In (Post url body) (snd (handlerOf p seen e st)) ->
  url = "https://rppe4wbr3k.execute-api.eu-west-3.amazonaws.com/api/appointments" /\
  date (appointmentData seen) <> "" /\
  time (appointmentData seen) <> "" /\
  name (appointmentData seen) <> "" /\
  email (appointmentData seen) <> "" /\
  pl_appointment body = (date (appointmentData seen), time (appointmentData seen)) /\
  pl_customer body
  = (name (appointmentData seen), firstName (appointmentData seen),
     email (appointmentData seen), RepairBooking.phone (appointmentData seen)).
Proof.
  destruct e; cbn [handlerOf]; try (cbn; intuition discriminate).
  - unfold nextStepOf, andThen. cbn. branches; cbn; intuition discriminate.
  - unfold nextStepOf, andThen. cbn. branches; cbn; intuition discriminate.
  - unfold nextStepOf, andThen. cbn. branches; cbn; intuition discriminate.
  - unfold nextStepOf. branches; cbn; intuition discriminate.
  - unfold prevStepOf. branches; cbn; intuition discriminate.
  - unfold prevStepOf. branches; cbn; intuition discriminate.
  - unfold handleSubmit_startOf, andThen. cbn.
    destruct (falsy (date (appointmentData seen)) || falsy (time (appointmentData seen))
              || falsy (name (appointmentData seen)) || falsy (email (appointmentData seen)))
      eqn:Hfields; [cbn; intuition discriminate |].
    rewrite !orb_false_iff, !not_falsy_iff in Hfields.
    destruct (selectedRepairDoc seen) as [doc |]; cbn; [| intuition discriminate].
    intros [H | [H | []]]; [discriminate H |].
    injection H as <- <-. cbn. tauto.
  - destruct reply as [r | r | r | action].
    + destruct r as [message | [|] [message | data]]; cbn; intuition discriminate.
    + destruct r as [message | [|] [message | data]]; cbn; intuition discriminate.
    + destruct r as [message | [|] [message | [m |]]]; cbn; intuition discriminate.
    + destruct action. cbn. destruct (deviceType p); cbn; intuition discriminate.
Qed.

(** The loading effects post nothing. *)
Lemma brandsEffect_posts (st : State) (url : string) (body : Payload) :
  ~ In (Post url body) (snd (brandsEffect st)).
Proof.
  unfold brandsEffect, fetchBrands_start.
  destruct (selectedSubtype st) as [sub |]; cbn; [| tauto].
  destruct (brandCategory (sub_id sub)); cbn; intuition discriminate.
Qed.

Lemma repairsEffect_posts
  (encode : string -> option string) (st : State) (url : string) (body : Payload) :
  ~ In (Post url body) (snd (repairsEffect encode st)).
Proof.
  unfold repairsEffect, fetchRepairDocs_start.
  destruct (selectedBrand st) as [brand |]; [| cbn; tauto].
  destruct (selectedSubtype st) as [sub |]; [| cbn; tauto].
  destruct (repairsEndpoint (sub_id sub)); cbn;
    [destruct (encode (brand_name brand)); cbn |]; intuition discriminate.
Qed.

Lemma runEffects_posts
  (encode : string -> option string) (before after : State)
  (url : string) (body : Payload) :
  ~ In (Post url body) (snd (fst (runEffects encode before after))).
Proof.
  unfold runEffects.
  pose proof (brandsEffect_posts after url body) as Hb.
  destruct (brandsEffect after) as [b eb] eqn:Eb. cbn [snd] in Hb.
  pose proof (repairsEffect_posts encode after url body) as Hr.
  pose proof (repairsEffect_posts encode b url body) as Hrb.
  destruct (repairsEffect encode after) as [r er] eqn:Er. cbn [snd] in Hr.
  destruct (repairsEffect encode b) as [rb erb] eqn:Erb. cbn [snd] in Hrb.
  destruct (subtype_eq_dec (selectedSubtype before) (selectedSubtype after));
    destruct (brand_eq_dec (selectedBrand before) (selectedBrand after));
    destruct (negb (currentStep before =? currentStep after));
    cbn [orb skip historyEffect emit fst snd app];
    rewrite ?Eb, ?Er, ?Erb;
    cbn [orb skip historyEffect emit fst snd app];
    intros Hin;
    repeat (apply in_app_or in Hin; destruct Hin as [Hin | Hin]);
    cbn [In] in Hin; try tauto; destruct Hin as [Hin | []]; discriminate Hin.
Qed.

(** ** One step of a session *)

Lemma fireOf_choices
  (p : Props) (encode : string -> option string) (seen : State) (e : Event) (w : World) :
  choices (ui (fireOf p encode seen e w)) = choices (fst (handlerOf p seen e (ui w))).
Proof.
  unfold fireOf.
  pose proof (runEffects_choices encode (ui w) (fst (handlerOf p seen e (ui w)))) as H.
  destruct (handlerOf p seen e (ui w)) as [st1 effects]. cbn [fst] in *.
  destruct (runEffects encode (ui w) st1) as [[st2 effects2] requests].
  exact H.
Qed.

Lemma effectsAgain_choices
  (encode : string -> option string) (brandsToo : bool) (w : World) :
  choices (ui (effectsAgain encode brandsToo w)) = choices (ui w).
Proof.
  unfold effectsAgain.
  pose proof (brandsEffect_choices (ui w)) as Hb.
  destruct brandsToo; cbn [skip].
  - destruct (brandsEffect (ui w)) as [s1 e1]. cbn [fst] in Hb.
    pose proof (repairsEffect_choices encode s1) as Hr.
    destruct (repairsEffect encode s1) as [s2 e2]. cbn [fst ui] in *. congruence.
  - pose proof (repairsEffect_choices encode (ui w)) as Hr.
    destruct (repairsEffect encode (ui w)) as [s2 e2]. exact Hr.
Qed.

Lemma fireOf_flags
  (p : Props) (encode : string -> option string) (seen : State)
  (w : World) (e : Event) :
  flagsFollowFlight w -> possible p w seen e ->
  flagsFollowFlight (fireOf p encode seen e w).
Proof.
  intros Hinv Hposs. unfold flagsFollowFlight, fireOf in *.
  pose proof (handlerOf_flags p seen e (ui w)) as Hh.
  destruct (handlerOf p seen e (ui w)) as [st1 effects] eqn:Eh. cbn [fst snd] in Hh.
  pose proof (runEffects_flags encode (ui w) st1) as Hr.
  destruct (runEffects encode (ui w) st1) as [[st2 effects2] requests] eqn:Er.
  cbn [fst snd] in Hr. cbn [ui pending].
  destruct Hr as (Rs & Rp & _ & Rsub & Rtime & Rb & Rd).
  destruct Hinv as (Ib & Id & Is & It).
  rewrite !count_app.
  destruct e; cbn [consumed possible] in *;
    try (destruct Hh as (Hl & Hp & Ha); rewrite Ha, ?count_nil;
         rewrite Hl in Rs, Rb, Rd; rewrite Hp in Rp;
         (split; [intros Hz; specialize (Ib ltac:(lia)); specialize (Rb ltac:(lia));
                  destruct Rb; congruence |]);
         (split; [intros Hz; specialize (Id ltac:(lia)); specialize (Rd ltac:(lia));
                  destruct Rd; congruence |]);
         (split; [intros Hz; specialize (Is ltac:(lia)); congruence |]);
         intros Hz; specialize (It ltac:(lia)); congruence).
  - (* Submit *)
    destruct Hh as (Hb & Hm & Hp & Hs).
    rewrite Hb in Rb. rewrite Hm in Rd. rewrite Hp in Rp.
    destruct Hs as [[Hs Ha] | [Hs [body Ha]]]; rewrite Ha;
      cbn [count filter isBrandsRequest isDocsRequest isSubmitRequest isTimeout
             List.length];
      (split; [intros Hz; specialize (Ib ltac:(lia)); specialize (Rb ltac:(lia));
               destruct Rb; congruence |]);
      (split; [intros Hz; specialize (Id ltac:(lia)); specialize (Rd ltac:(lia));
               destruct Rd; congruence |]);
      (split; [intros Hz; first [lia | specialize (Is ltac:(lia)); congruence] |]);
      intros Hz; specialize (It ltac:(lia)); congruence.
  - (* Settle *)
    destruct Hposs as (awaited & Hnth & Hans).
    pose proof (count_removeNth isBrandsRequest i (pending w) awaited Hnth) as Cb.
    pose proof (count_removeNth isDocsRequest i (pending w) awaited Hnth) as Cd.
    pose proof (count_removeNth isSubmitRequest i (pending w) awaited Hnth) as Cs.
    pose proof (count_removeNth isTimeout i (pending w) awaited Hnth) as Ct.
    destruct reply as [r | r | r | action];
      destruct awaited; cbn [answers] in Hans; try contradiction;
      cbn [isBrandsRequest isDocsRequest isSubmitRequest isTimeout] in *.
    all: repeat match goal with
                | H : _ /\ _ |- _ => destruct H
                | H : _ \/ _ |- _ => destruct H
                | H : armed _ = _ |- _ => rewrite H in *; clear H
                end;
      cbn [count filter isBrandsRequest isDocsRequest isSubmitRequest isTimeout
             List.length] in *.
    all: try match goal with
             | H : isLoading _ = isLoading _ |- _ =>
                 pose proof (f_equal loading_submitting H);
                 pose proof (f_equal loading_brands H);
                 pose proof (f_equal loading_models H)
             end.
    all: split;
      [ intros Hz; try specialize (Ib ltac:(lia)); specialize (Rb ltac:(lia));
        destruct Rb; congruence |].
    all: split;
      [ intros Hz; try specialize (Id ltac:(lia)); specialize (Rd ltac:(lia));
        destruct Rd; congruence |].
    all: split;
      [ intros Hz; try specialize (Is ltac:(lia)); congruence |].
    all: intros Hz; try specialize (It ltac:(lia)); try congruence; try lia.
Qed.

Lemma effectsAgain_flags
  (encode : string -> option string) (brandsToo : bool) (w : World) :
  flagsFollowFlight w -> flagsFollowFlight (effectsAgain encode brandsToo w).
Proof.
  intros (Ib & Id & Is & It). unfold flagsFollowFlight, effectsAgain.
  pose proof (brandsEffect_flags (ui w)) as Hb.
  destruct brandsToo; cbn [skip].
  - destruct (brandsEffect (ui w)) as [s1 e1]. cbn [fst snd] in Hb.
    pose proof (repairsEffect_flags encode s1) as Hr.
    destruct (repairsEffect encode s1) as [s2 e2]. cbn [fst snd ui pending] in *.
    destruct Hb as (Bm & Bs & Bp & _ & _ & Bf).
    destruct Hr as (Rb & Rs & Rp & _ & _ & Rf).
    pose proof (count_fetches_brands e1) as (Hb1 & Hb2 & Hb3).
    pose proof (count_fetches_docs e2) as (Hr1 & Hr2 & Hr3).
    rewrite !count_app.
    split; [intros Hz; specialize (Ib ltac:(lia)); specialize (Bf ltac:(lia));
            destruct Bf; congruence |].
    split; [intros Hz; specialize (Id ltac:(lia)); specialize (Rf ltac:(lia));
            destruct Rf; congruence |].
    split; [intros Hz; specialize (Is ltac:(lia)); congruence |].
    intros Hz; specialize (It ltac:(lia)); congruence.
  - pose proof (repairsEffect_flags encode (ui w)) as Hr.
    destruct (repairsEffect encode (ui w)) as [s2 e2]. cbn [fst snd ui pending] in *.
    destruct Hr as (Rb & Rs & Rp & _ & _ & Rf).
    pose proof (count_fetches_docs e2) as (Hr1 & Hr2 & Hr3).
    rewrite !count_app. cbn [fetches flat_map]. rewrite count_nil.
    split; [intros Hz; specialize (Ib ltac:(lia)); congruence |].
    split; [intros Hz; specialize (Id ltac:(lia)); specialize (Rf ltac:(lia));
            destruct Rf; congruence |].
    split; [intros Hz; specialize (Is ltac:(lia)); congruence |].
    intros Hz; specialize (It ltac:(lia)); congruence.
Qed.

(** What a step adds to the trace. *)
Lemma fireOf_trace
  (p : Props) (encode : string -> option string) (seen : State) (e : Event)
  (w : World) (x : Effect) :
  In x (trace (fireOf p encode seen e w)) ->
  In x (trace w) \/ In x (snd (handlerOf p seen e (ui w)))
  \/ In x (snd (fst (runEffects encode (ui w) (fst (handlerOf p seen e (ui w)))))).
Proof.
  unfold fireOf.
  destruct (handlerOf p seen e (ui w)) as [st1 effects]. cbn [fst snd].
  destruct (runEffects encode (ui w) st1) as [[st2 effects2] requests].
  cbn [fst snd trace]. intros Hin.
  apply in_app_or in Hin. destruct Hin as [Hin | Hin]; [tauto |].
  apply in_app_or in Hin. tauto.
Qed.

Lemma effectsAgain_trace
  (encode : string -> option string) (brandsToo : bool) (w : World) (x : Effect) :
  In x (trace (effectsAgain encode brandsToo w)) ->
  In x (trace w) \/
  (exists st, In x (snd (brandsEffect st))) \/
  (exists st, In x (snd (repairsEffect encode st))).
Proof.
  unfold effectsAgain.
  destruct brandsToo; cbn [skip].
  - destruct (brandsEffect (ui w)) as [s1 e1] eqn:Eb.
    destruct (repairsEffect encode s1) as [s2 e2] eqn:Er.
    cbn [trace]. intros Hin.
    apply in_app_or in Hin. destruct Hin as [Hin | Hin]; [tauto |].
    apply in_app_or in Hin. destruct Hin as [Hin | Hin].
    + right. left. exists (ui w). now rewrite Eb.
    + right. right. exists s1. now rewrite Er.
  - destruct (repairsEffect encode (ui w)) as [s2 e2] eqn:Er.
    cbn [trace app]. intros Hin.
    apply in_app_or in Hin. destruct Hin as [Hin | Hin]; [tauto |].
    right. right. exists (ui w). now rewrite Er.
Qed.

Lemma mounted_sound (p : Props) (innerWidth : Z) :
  sound (ui (mounted p innerWidth)) /\ sound (initialState p).
Proof.
  unfold sound, timeIsASlot.
  destruct p as [[t |] cb]; cbn -[deviceSubtypes timeSlots In];
    repeat split; intros; try lia; try discriminate; auto.
Qed.

(** ** What every session keeps true, together *)

Lemma session_invariants
  (p : Props) (encode : string -> option string) (w : World) (renders : list State) :
  InSession p encode w renders ->
  (forall st, In st renders -> sound st) /\
  In (ui w) renders /\
  flagsFollowFlight w /\
  callbackOnlyIfGiven p w /\
  (forall url body, In (Post url body) (trace w) -> completeBooking url body).
Proof.
  induction 1 as [innerWidth
                 | w renders seen e Hsession (Hsound & Hui & Hfl & Hcb & Hpost) Hseen Hposs
                 | w renders brandsToo Hsession (Hsound & Hui & Hfl & Hcb & Hpost)].
  - destruct (mounted_sound p innerWidth) as [Hm Hi].
    split; [intros st [<- | [<- | []]]; assumption |].
    split; [left; reflexivity |].
    split; [unfold flagsFollowFlight; cbn; destruct (deviceType p); cbn; repeat split |].
    split; [unfold callbackOnlyIfGiven; cbn; intros _ [H | []]; discriminate H |].
    cbn. intros url body [H | []]. discriminate H.
  - assert (Hst1 : sound (fst (handlerOf p seen e (ui w)))).
    { apply (handlerOf_sound p w); auto. }
    assert (Hst2 : sound (ui (fireOf p encode seen e w))).
    { apply (sound_choices (fst (handlerOf p seen e (ui w)))); [| exact Hst1].
      symmetry. apply fireOf_choices. }
    split; [intros st [<- | [<- | Hin]]; auto |].
    split; [left; reflexivity |].
    split; [now apply fireOf_flags |].
    split.
    + intros Hnone Hin. apply fireOf_trace in Hin.
      destruct Hin as [Hin | [Hin | Hin]].
      * now apply Hcb.
      * apply handlerOf_callback in Hin. destruct Hin as [-> | Hgiven]; [| congruence].
        cbn in Hposs. congruence.
      * pose proof (runEffects_flags encode (ui w) (fst (handlerOf p seen e (ui w))))
          as (_ & _ & Hr & _).
        now apply Hr.
    + intros url body Hin. apply fireOf_trace in Hin.
      destruct Hin as [Hin | [Hin | Hin]].
      * now apply Hpost.
      * apply handlerOf_posts in Hin.
        destruct Hin as (-> & Hdate & Htime & Hname & Hemail & Happ & Hcust).
        destruct (Hsound seen Hseen) as (_ & _ & Hslot).
        unfold completeBooking. rewrite Happ, Hcust. cbn [fst snd].
        split; [reflexivity |].
        split; [exact Hdate |].
        split; [destruct Hslot as [Hempty | Hslot]; [contradiction | exact Hslot] |].
        split; assumption.
      * now apply runEffects_posts in Hin.
  - assert (Hst2 : sound (ui (effectsAgain encode brandsToo w))).
    { apply (sound_choices (ui w)); [| now apply Hsound].
      symmetry. apply effectsAgain_choices. }
    split; [intros st [<- | Hin]; auto |].
    split; [left; reflexivity |].
    split; [now apply effectsAgain_flags |].
    split.
    + intros Hnone Hin. apply effectsAgain_trace in Hin.
      destruct Hin as [Hin | [[st Hin] | [st Hin]]].
      * now apply Hcb.
      * pose proof (brandsEffect_flags st) as (_ & _ & _ & _ & Hno & _). now apply Hno.
      * pose proof (repairsEffect_flags encode st) as (_ & _ & _ & _ & Hno & _).
        now apply Hno.
    + intros url body Hin. apply effectsAgain_trace in Hin.
      destruct Hin as [Hin | [[st Hin] | [st Hin]]].
      * now apply Hpost.
      * now apply brandsEffect_posts in Hin.
      * now apply repairsEffect_posts in Hin.
Qed.

(** A script of possible events is a session. *)
Lemma play_in_session
  (p : Props) (encode : string -> option string)
  (script : list (nat * Event)) (w : World) (renders : list State) :
  InSession p encode w renders ->
  possibleAlong p encode script w renders ->
  InSession p encode (fst (play p encode script w renders))
                     (snd (play p encode script w renders)).
Proof.
  revert w renders.
  induction script as [| [age e] rest IH]; intros w renders Hsession Hposs.
  - exact Hsession.
  - cbn [play possibleAlong] in *. destruct Hposs as [Hnow Hlater].
    unfold playOne in *. cbn [fst snd] in Hlater.
    apply IH; [| exact Hlater].
    apply session_event; [exact Hsession | | exact Hnow].
    destruct (nth_in_or_default age renders (ui w)) as [Hin | ->]; [exact Hin |].
    now destruct (session_invariants p encode w renders Hsession) as (_ & Hui & _).
Qed.

Ltac possible_by_computation :=
  vm_compute;
  repeat match goal with
         | |- _ /\ _ => split
         | |- True => exact I
         | |- exists _, _ => eexists
         | |- _ -> _ => intro
         | |- _ = _ => reflexivity
         | |- _ \/ _ => first [left; reflexivity | right]
         | H : _ = _ |- _ => discriminate H
         | |- _ => exact I
         end.

Lemma submittingTwice_in_session :
  InSession anyVisitor sameEncoded (fst afterSubmittingTwice) (snd afterSubmittingTwice).
Proof.
  apply play_in_session; [apply session_mounted | possible_by_computation].
Qed.

(** ** What every session keeps true *)

(** X1: in every session, whichever renders its events come from (the panel
    that is leaving included), the step of every render is between 1 and 6,
    and the time of its form is empty or one of the time slots. *)
Theorem session_step_in_range
  (p : Props) (encode : string -> option string) (w : World) (renders : list State) :
  InSession p encode w renders ->
  forall st, st = ui w \/ In st renders ->
    1 <= currentStep st <= 6 /\ timeIsASlot st.
Proof.
  intros Hsession st Hst.
  destruct (session_invariants p encode w renders Hsession) as (Hsound & Hui & _).
  assert (Hin : In st renders) by (destruct Hst as [-> | Hin]; assumption).
  destruct (Hsound st Hin) as (Hstep & _ & Htime).
  split; assumption.
Qed.

Lemma session_step_in_range_witness :
  1 <= currentStep (ui (fst afterSubmittingTwice)) <= 6 /\
  timeIsASlot (ui (fst afterSubmittingTwice)).
Proof.
  exact (session_step_in_range anyVisitor sameEncoded
           (fst afterSubmittingTwice) (snd afterSubmittingTwice)
           submittingTwice_in_session
           (ui (fst afterSubmittingTwice)) (or_introl eq_refl)).
Defined.

(** X3: in every session the selected subtype, if there is one, is one of the
    four of the table, so that the loaders never take their "Invalid subtype"
    branch: the brand effect requests /brands/{subtype}, and with a brand
    whose name encodes the repair effect requests
    /repairs/{subtype}s?brand={encoded name}. *)
Theorem session_subtype_is_loadable
  (p : Props) (encode : string -> option string) (w : World) (renders : list State) :
  InSession p encode w renders ->
  forall st sub, st = ui w \/ In st renders -> selectedSubtype st = Some sub ->
    In sub deviceSubtypes /\
    In (sub_id sub) validSubtypes /\
    snd (brandsEffect st)
    = [Fetch ("https://rppe4wbr3k.execute-api.eu-west-3.amazonaws.com/api/brands/"
              ++ sub_id sub)%string] /\
    (forall brand encoded,
       selectedBrand st = Some brand -> encode (brand_name brand) = Some encoded ->
       snd (repairsEffect encode st)
       = [Fetch ("https://rppe4wbr3k.execute-api.eu-west-3.amazonaws.com/api/repairs/"
                 ++ sub_id sub ++ "s?brand=" ++ encoded)%string]).
Proof.
  intros Hsession st sub Hst Hsub.
  destruct (session_invariants p encode w renders Hsession) as (Hsound & Hui & _).
  assert (Hin : In st renders) by (destruct Hst as [-> | Hin]; assumption).
  destruct (Hsound st Hin) as (_ & Htable & _).
  specialize (Htable sub Hsub).
  split; [exact Htable |].
  unfold brandsEffect, repairsEffect. rewrite Hsub.
  destruct Htable as [<- | [<- | [<- | [<- | []]]]];
    (split; [cbn; tauto |]);
    (split; [reflexivity |]);
    intros brand encoded -> Henc;
    unfold fetchRepairDocs_start; cbn; rewrite Henc; reflexivity.
Qed.

Lemma session_subtype_is_loadable_witness :
  snd (brandsEffect (ui (fst afterSubmittingTwice)))
  = [Fetch "https://rppe4wbr3k.execute-api.eu-west-3.amazonaws.com/api/brands/mobile"] /\
  snd (repairsEffect sameEncoded (ui (fst afterSubmittingTwice)))
  = [Fetch "https://rppe4wbr3k.execute-api.eu-west-3.amazonaws.com/api/repairs/mobiles?brand=nokia"].
Proof.
  destruct (session_subtype_is_loadable anyVisitor sameEncoded
              (fst afterSubmittingTwice) (snd afterSubmittingTwice)
              submittingTwice_in_session
              (ui (fst afterSubmittingTwice)) mobileSubtype
              (or_introl eq_refl) eq_refl)
    as (_ & _ & Hbrands & Hrepairs).
  split; [exact Hbrands |].
  exact (Hrepairs nokia "nokia" eq_refl eq_refl).
Defined.

(** X5: in every session a busy flag is down when no request of its kind is
    awaited, and the confirmation is down when no timer is. *)
Theorem session_flags_follow_flight
  (p : Props) (encode : string -> option string) (w : World) (renders : list State) :
  InSession p encode w renders -> flagsFollowFlight w.
Proof.
  intros Hsession.
  now destruct (session_invariants p encode w renders Hsession) as (_ & _ & H & _).
Qed.

Lemma session_flags_follow_flight_witness :
  flagsFollowFlight (fst afterSubmittingTwice).
Proof.
  exact (session_flags_follow_flight anyVisitor sameEncoded
           (fst afterSubmittingTwice) (snd afterSubmittingTwice)
           submittingTwice_in_session).
Defined.

(** X6: in every session, without the callback among the props, the callback
    is never called: neither by a retreat, from whichever render, nor by the
    browser's back, and the home button is not there. *)
Theorem session_never_calls_missing_callback
  (p : Props) (encode : string -> option string) (w : World) (renders : list State) :
  InSession p encode w renders -> callbackOnlyIfGiven p w.
Proof.
  intros Hsession.
  now destruct (session_invariants p encode w renders Hsession) as (_ & _ & _ & H & _).
Qed.

Lemma session_never_calls_missing_callback_witness :
  ~ In CallBackToHome (trace (fst afterSubmittingTwice)).
Proof.
  exact (session_never_calls_missing_callback anyVisitor sameEncoded
           (fst afterSubmittingTwice) (snd afterSubmittingTwice)
           submittingTwice_in_session eq_refl).
Defined.

(** X7: every POST of a session goes to the appointments endpoint and books
    one of the time slots, with a date, a name and an e-mail address that are
    not empty: also when the form it comes from is no longer the latest
    render. *)
Theorem session_posts_complete_bookings
  (p : Props) (encode : string -> option string) (w : World) (renders : list State) :
  InSession p encode w renders ->
  forall url body, In (Post url body) (trace w) -> completeBooking url body.
Proof.
  intros Hsession.
  now destruct (session_invariants p encode w renders Hsession) as (_ & _ & _ & _ & H).
Qed.

Lemma session_posts_complete_bookings_witness :
  completeBooking appointmentsUrl
    (appointmentPayload "2026-03-01T10:00:01.000Z" (ui readyToSubmit) nokia3310).
Proof.
  apply (session_posts_complete_bookings anyVisitor sameEncoded
           (fst afterSubmittingTwice) (snd afterSubmittingTwice)
           submittingTwice_in_session).
  vm_compute. repeat (first [left; reflexivity | right]).
Defined.

(** * More of the booking wizard *)

(** ** The payload *)

Lemma costOf_price (doc : RepairDocument) (id : string) :
  costOf (Some doc) id
  = match option_map estimatedCost (find (hasId id) (repairOptions doc)) with
    | Some c => c
    | None => 0%float
    end.
Proof.
  unfold costOf, findService.
  destruct (find (hasId id) (repairOptions doc)); reflexivity.
Qed.

(** X10: the total of a payload is the sum of the prices of its service lines,
    added as doubles from 0 in the order of the lines, a line without a price
    counting for zero; and the lines are the selected identifiers, in their
    order. *)
Theorem payload_total_is_sum_of_lines (now : string) (st : State) (doc : RepairDocument) :
  selectedRepairDoc st = Some doc ->
  let body := appointmentPayload now st doc in
  pl_totalPrice body
  = sumLeft (map (fun line => match ps_price line with Some c => c | None => 0%float end)
               (pl_services body))
  /\ map ps_id (pl_services body) = selectedServices st.
Proof.
  intros Hdoc. cbn [appointmentPayload pl_totalPrice pl_services].
  split.
  - unfold totalPrice. rewrite totalPriceOf_sum, Hdoc, map_map. cbn [ps_price].
    f_equal. apply map_ext. intros id. apply costOf_price.
  - rewrite map_map. cbn [ps_id]. apply map_id.
Qed.

Lemma payload_total_is_sum_of_lines_witness :
  exists doc,
    selectedRepairDoc (ui readyToSubmit) = Some doc /\
    pl_totalPrice (appointmentPayload "now" (ui readyToSubmit) doc) = 50%float.
Proof.
  exists nokia3310. split; [reflexivity |].
  destruct (payload_total_is_sum_of_lines "now" (ui readyToSubmit) nokia3310 eq_refl)
    as [Htotal _].
  rewrite Htotal. reflexivity.
Defined.

(** ** Advancing, and the browser's back *)

(** X11: [nextStep] from a step below 6 lands on the next step, empties the
    search filter and pushes one history entry with the new step, and leaves
    every selection and every other cell as it was; from step 6 on it does
    nothing at all. *)
Theorem nextStep_advance_frame (st : State) :
  let st' := fst (nextStep st) in
  (currentStep st < 6 ->
     currentStep st' = currentStep st + 1 /\
     searchTerm st' = "" /\
     (forall s, kept s st st') /\
     restUnchanged st st' /\
     snd (nextStep st) = [HistoryPush (currentStep st + 1)]) /\
  (6 <= currentStep st -> nextStep st = (st, [])).
Proof.
  cbv zeta. unfold nextStep. split; intros Hstep.
  - destruct (Z.ltb_spec (currentStep st) 6) as [_ | Hge]; [| lia].
    cbn. repeat split. intros s. destruct s; reflexivity.
  - destruct (Z.ltb_spec (currentStep st) 6) as [Hlt | _]; [lia | reflexivity].
Qed.

Lemma nextStep_advance_frame_witness :
  currentStep (fst (nextStep (ui choosingBrand))) = 4 /\
  searchTerm (fst (nextStep (ui choosingBrand))) = "" /\
  nextStep (ui readyToSubmit) = (ui readyToSubmit, []).
Proof.
  destruct (nextStep_advance_frame (ui choosingBrand)) as [Hadvance _].
  destruct (nextStep_advance_frame (ui readyToSubmit)) as [_ Hstay].
  destruct Hadvance as (Hstep & Hsearch & _); [vm_compute; reflexivity |].
  split; [exact Hstep |].
  split; [exact Hsearch |].
  apply Hstay. vm_compute. discriminate.
Defined.

(** X12: the browser's back does what the wizard's own back button does, on
    every state and whatever the props: the listener's guard is the one
    [prevStep] starts with. *)
Theorem popstate_is_prevStep (p : Props) (st : State) :
  handlePopState p st = prevStep p st.
Proof.
  unfold handlePopState, prevStep.
  destruct (1 <? currentStep st); reflexivity.
Qed.

(** ** Toggling, again *)

Lemma toggled_membership (s x : string) (l : list string) :
  In x (toggled s l) <-> (x = s /\ ~ In s l) \/ (x <> s /\ In x l).
Proof.
  destruct (in_dec string_dec s l) as [Hin | Hnot].
  - rewrite (toggled_present s l Hin), filter_In.
    split.
    + intros [Hx Hne]. right. split; [| exact Hx].
      intros ->. rewrite String.eqb_refl in Hne. discriminate Hne.
    + intros [[_ Habs] | [Hne Hx]]; [contradiction |].
      split; [exact Hx |].
      apply negb_true_iff. now apply String.eqb_neq.
  - rewrite (toggled_absent s l Hnot), in_app_iff. cbn.
    split.
    + intros [Hx | [<- | []]].
      * right. split; [| exact Hx]. intros ->. contradiction.
      * left. split; [reflexivity | exact Hnot].
    + intros [[-> _] | [_ Hx]]; [right; left; reflexivity | left; exact Hx].
Qed.

(** X13: toggling an identifier flips its membership and leaves the membership
    of every other identifier as it was, on any list, duplicates or not; the
    same holds of the favourites of the carousel. *)
Theorem toggle_flips_membership
  (Product : Type) (s x : string) (st : State) (c : ProductCarousel.State Product) :
  (In x (selectedServices (fst (toggleService s st)))
   <-> (x = s /\ ~ In s (selectedServices st))
       \/ (x <> s /\ In x (selectedServices st))) /\
  (In x (ProductCarousel.favorites Product (ProductCarousel.toggleFavorite Product s c))
   <-> (x = s /\ ~ In s (ProductCarousel.favorites Product c))
       \/ (x <> s /\ In x (ProductCarousel.favorites Product c))).
Proof.
  split.
  - cbn. apply toggled_membership.
  - cbn. apply (toggled_membership s x (ProductCarousel.favorites Product c)).
Qed.

(** X14: toggling in a service that is not selected makes the total the total
    before plus the cost the service resolves to, in one more double addition;
    toggling it out again gives back the total before, to the bit. *)
Theorem toggle_moves_total_by_cost
  (s : string) (services : list string) (doc : option RepairDocument) :
  ~ In s services ->
  totalPriceOf (toggled s services) doc
  = (totalPriceOf services doc + costOf doc s)%float /\
  totalPriceOf (toggled s (toggled s services)) doc = totalPriceOf services doc.
Proof.
  intros Hnot. rewrite (toggled_absent s services Hnot).
  split.
  - unfold totalPriceOf. rewrite fold_left_app. reflexivity.
  - rewrite toggled_present by (apply in_or_app; right; left; reflexivity).
    rewrite filter_app, (without_absent s services Hnot). cbn.
    rewrite String.eqb_refl. cbn. now rewrite app_nil_r.
Qed.

Lemma toggle_moves_total_by_cost_witness :
  totalPriceOf (toggled "b" ["a"]) (Some docAB) = 80%float /\
  totalPriceOf (toggled "b" (toggled "b" ["a"])) (Some docAB) = 50%float.
Proof.
  destruct (toggle_moves_total_by_cost "b" ["a"] (Some docAB)) as [Hin Hout].
  - intros [H | []]. discriminate H.
  - split; [rewrite Hin | rewrite Hout]; reflexivity.
Defined.

(** X28: the total is a sum of doubles taken in the order of the selection,
    not a sum of decimals: with services of 29.9, 39.9 and 69.9 the total is
    139.7 when they are selected in that order and 139.70000000000002 when
    they are selected in the opposite order; and with services of 2^53 and 1
    the total is 2^53. *)
Theorem total_follows_selection_order :
  totalPriceOf ["x"; "y"; "z"] (Some docXYZ) = 139.7%float /\
  totalPriceOf ["z"; "y"; "x"] (Some docXYZ) = 139.70000000000002%float /\
  PrimFloat.eqb (totalPriceOf ["x"; "y"; "z"] (Some docXYZ))
                (totalPriceOf ["z"; "y"; "x"] (Some docXYZ)) = false /\
  totalPriceOf ["big"; "one"] (Some docBig) = 9007199254740992%float.
Proof. repeat split; reflexivity. Qed.

(** ** Loading the repair documents *)

Lemma repairsEndpoint_valid (id : string) :
  In id validSubtypes -> repairsEndpoint id = Some (id ++ "s")%string.
Proof.
  unfold validSubtypes.
  intros [<- | [<- | [<- | [<- | []]]]]; reflexivity.
Qed.

Lemma repairsEndpoint_invalid (id : string) :
  ~ In id validSubtypes -> repairsEndpoint id = None.
Proof.
  unfold validSubtypes, repairsEndpoint. cbn. intros Hnot.
  destruct (String.eqb_spec id "mobile"); [exfalso; apply Hnot; subst; tauto |].
  destruct (String.eqb_spec id "tablet"); [exfalso; apply Hnot; subst; tauto |].
  destruct (String.eqb_spec id "laptop"); [exfalso; apply Hnot; subst; tauto |].
  destruct (String.eqb_spec id "console"); [exfalso; apply Hnot; subst; tauto |].
  reflexivity.
Qed.

(** X15: for a subtype among mobile, tablet, laptop and console and a brand
    name that encodes, the loader of the repair documents asks
    /repairs/{subtype}s?brand={encoded name}, raises its flag and clears the
    error; for any other subtype, or a name that does not encode, it asks
    nothing, reports "Failed to load models" and lowers its flag. Either way
    the lists and the choices stay. *)
Theorem fetchRepairDocs_maps_subtype
  (encode : string -> option string) (brand : Brand) (sub : DeviceSubtype) (st : State) :
  let st' := fst (fetchRepairDocs_start encode brand sub st) in
  let effects := snd (fetchRepairDocs_start encode brand sub st) in
  (forall encoded,
     In (sub_id sub) validSubtypes -> encode (brand_name brand) = Some encoded ->
     effects
     = [Fetch ("https://rppe4wbr3k.execute-api.eu-west-3.amazonaws.com/api/repairs/"
               ++ sub_id sub ++ "s?brand=" ++ encoded)%string] /\
     loading_models (isLoading st') = true /\
     error st' = None) /\
  (~ In (sub_id sub) validSubtypes \/ encode (brand_name brand) = None ->
     (exists message, effects = [ConsoleError message]) /\
     (~ In (sub_id sub) validSubtypes -> effects = [ConsoleError "Invalid subtype"]) /\
     (forall url, ~ In (Fetch url) effects) /\
     loading_models (isLoading st') = false /\
     error st' = Some "Failed to load models") /\
  repairDocs st' = repairDocs st /\
  brands st' = brands st /\
  choices st' = choices st.
Proof.
  cbv zeta. unfold fetchRepairDocs_start.
  split; [| split].
  - intros encoded Hin Henc. unfold validSubtypes in Hin.
    destruct Hin as [<- | [<- | [<- | [<- | []]]]];
      cbn; rewrite Henc; cbn; repeat split.
  - intros [Hnot | Henc].
    + rewrite (repairsEndpoint_invalid _ Hnot). cbn.
      split; [eexists; reflexivity |]. repeat split.
      intros url [H | []]. discriminate H.
    + destruct (repairsEndpoint (sub_id sub)) eqn:Hend; [rewrite Henc |]; cbn;
        (split; [eexists; reflexivity |]);
        (split; [intros Hnot; rewrite (repairsEndpoint_invalid _ Hnot) in Hend;
                 first [discriminate Hend | reflexivity] |]);
        repeat split; intros url [H | []]; discriminate H.
  - destruct (repairsEndpoint (sub_id sub)); [destruct (encode (brand_name brand)) |];
      cbn; repeat split.
Qed.

Lemma fetchRepairDocs_maps_subtype_witness :
  snd (fetchRepairDocs_start sameEncoded nokia mobileSubtype (ui choosingBrand))
  = [Fetch "https://rppe4wbr3k.execute-api.eu-west-3.amazonaws.com/api/repairs/mobiles?brand=nokia"] /\
  loading_models
    (isLoading (fst (fetchRepairDocs_start sameEncoded nokia mobileSubtype (ui choosingBrand))))
  = true /\
  error (fst (fetchRepairDocs_start sameEncoded nokia mobileSubtype (ui choosingBrand)))
  = None.
Proof.
  destruct (fetchRepairDocs_maps_subtype sameEncoded nokia mobileSubtype (ui choosingBrand))
    as [Hvalid _].
  apply (Hvalid "nokia").
  - cbn. tauto.
  - reflexivity.
Defined.

(** X16: when the request for the repair documents settles, the models flag
    goes down; a success replaces the list of repair documents and touches
    nothing else; a failure sets "Failed to load models" and keeps the list
    that was there. The choices, the selected document among them, and the
    brand list are never touched, and nothing is requested. *)
Theorem fetchRepairDocs_settles (r : Response (list RepairDocument)) (st : State) :
  let st' := fst (fetchRepairDocs_resolve r st) in
  loading_models (isLoading st') = false /\
  repairDocs st'
  = match r with
    | HttpResponse true (inr data) => data
    | _ => repairDocs st
    end /\
  error st' = (if failed r then Some "Failed to load models" else error st) /\
  choices st' = choices st /\
  brands st' = brands st /\
  searchTerm st' = searchTerm st /\
  networkCalls (snd (fetchRepairDocs_resolve r st)) = [].
Proof.
  destruct r as [message | [|] [message | data]]; cbn; repeat split.
Qed.

(** ** A submission that fails *)

Lemma orElse_nonempty (s : string) : orElse s submitFailed <> "".
Proof.
  unfold orElse, falsy.
  destruct (String.eqb_spec s ""); [discriminate | assumption].
Qed.

(** X17: when a submission fails (the request is rejected, the response is
    not a success, or its body does not parse) the booking stays as it is:
    the step, the selections, the form, the lists and the search filter are
    untouched, no confirmation is shown and no reset is armed; the submission
    flag goes down and the error holds a message that is never empty, the
    server's when it sent one. *)
Theorem submit_failure_keeps_the_booking (r : Response (option string)) (st : State) :
  failed r = true ->
  let st' := fst (handleSubmit_resolve r st) in
  choices st' = choices st /\
  searchTerm st' = searchTerm st /\
  brands st' = brands st /\
  repairDocs st' = repairDocs st /\
  showSuccessPopup st' = showSuccessPopup st /\
  armed (snd (handleSubmit_resolve r st)) = [] /\
  loading_submitting (isLoading st') = false /\
  (exists message, error st' = Some message /\ message <> "") /\
  (forall message, message <> "" ->
     r = HttpResponse false (inr (Some message)) -> error st' = Some message).
Proof.
  intros Hfail. cbv zeta.
  destruct r as [message | [|] [message | [m |]]]; try discriminate Hfail;
    cbn; repeat split;
    try (eexists; split; [reflexivity | apply orElse_nonempty]);
    try (intros m' Hne [=]; subst);
    try (intros m' Hne H; discriminate H).
  - unfold orElse, falsy.
    destruct (String.eqb_spec m' ""); [contradiction |].
    destruct (String.eqb_spec m' ""); [contradiction | reflexivity].
  - eexists. split; [reflexivity | discriminate].
Qed.

Lemma submit_failure_keeps_the_booking_witness :
  let st' := fst (handleSubmit_resolve (HttpResponse false (inr (Some "Slot taken")))
                    (ui readyToSubmit)) in
  choices st' = choices (ui readyToSubmit) /\
  error st' = Some "Slot taken".
Proof.
  destruct (submit_failure_keeps_the_booking
              (HttpResponse false (inr (Some "Slot taken"))) (ui readyToSubmit) eq_refl)
    as (Hchoices & _ & _ & _ & _ & _ & _ & _ & Hmessage).
  split; [exact Hchoices |].
  apply Hmessage; [discriminate | reflexivity].
Defined.
(** ** The search filter *)

Lemma prefix_empty (s : string) : String.prefix "" s = true.
Proof. destruct s; reflexivity. Qed.

Lemma prefix_refl (s : string) : String.prefix s s = true.
Proof.
  induction s as [| a rest IH]; cbn; [reflexivity |].
  destruct (Ascii.ascii_dec a a); [exact IH | contradiction].
Qed.

Lemma includes_empty (s : string) : includes s "" = true.
Proof. destruct s; cbn [includes]; now rewrite prefix_empty. Qed.

Lemma includes_refl (s : string) : includes s s = true.
Proof.
  destruct s as [| a rest]; [reflexivity |].
  cbn [includes]. now rewrite prefix_refl.
Qed.

Lemma filter_all {A} (f : A -> bool) (l : list A) :
  (forall x, f x = true) -> filter f l = l.
Proof.
  intros Hall. induction l as [| x rest IH]; cbn; [reflexivity |].
  now rewrite Hall, IH.
Qed.

Lemma unfiltered (lower : string -> string) (st : State) :
  lower "" = "" -> searchTerm st = "" ->
  filteredBrands lower st = brands st /\
  filteredRepairDocs lower st = repairDocs st.
Proof.
  intros Hlower Hempty. unfold filteredBrands, filteredRepairDocs.
  rewrite Hempty, Hlower.
  split; apply filter_all; intros x; apply includes_empty.
Qed.

(** X18: with an empty search filter the brand step and the model step show
    their whole lists, and every move empties the filter: after [nextStep]
    from a step below 6, after a [prevStep] that moves, and after [resetForm],
    both filtered lists are the lists themselves. What was typed on the brand
    step does not filter the models. *)
Theorem moving_shows_the_whole_lists
  (lower : string -> string) (p : Props) (st : State) :
  lower "" = "" ->
  (currentStep st < 6 ->
     filteredBrands lower (fst (nextStep st)) = brands st /\
     filteredRepairDocs lower (fst (nextStep st)) = repairDocs st) /\
  (currentStep (fst (prevStep p st)) < currentStep st ->
     filteredBrands lower (fst (prevStep p st)) = brands st /\
     filteredRepairDocs lower (fst (prevStep p st)) = repairDocs st) /\
  filteredBrands lower (fst (resetForm p st)) = brands st /\
  filteredRepairDocs lower (fst (resetForm p st)) = repairDocs st.
Proof.
  intros Hlower.
  split; [| split].
  - intros Hstep.
    assert (Hmoved : searchTerm (fst (nextStep st)) = ""
                     /\ brands (fst (nextStep st)) = brands st
                     /\ repairDocs (fst (nextStep st)) = repairDocs st).
    { unfold nextStep.
      destruct (Z.ltb_spec (currentStep st) 6); [cbn; repeat split | lia]. }
    destruct Hmoved as (Hs & Hb & Hd).
    destruct (unfiltered lower _ Hlower Hs) as [H1 H2].
    rewrite H1, H2. now split.
  - intros Hmoves.
    assert (Hmoved : searchTerm (fst (prevStep p st)) = ""
                     /\ brands (fst (prevStep p st)) = brands st
                     /\ repairDocs (fst (prevStep p st)) = repairDocs st).
    { revert Hmoves. unfold prevStep.
      destruct (1 <? currentStep st); [| cbn; lia].
      destruct ((currentStep st - 1 =? 1) && isSome (deviceType p) && onBackToHome p);
        [cbn; lia |].
      intros _.
      repeat match goal with
             | |- context [if ?c then _ else _] => destruct c
             end; cbn; repeat split. }
    destruct Hmoved as (Hs & Hb & Hd).
    destruct (unfiltered lower _ Hlower Hs) as [H1 H2].
    rewrite H1, H2. now split.
  - assert (Hmoved : searchTerm (fst (resetForm p st)) = ""
                     /\ brands (fst (resetForm p st)) = brands st
                     /\ repairDocs (fst (resetForm p st)) = repairDocs st).
    { unfold resetForm. destruct (deviceType p); cbn; repeat split. }
    destruct Hmoved as (Hs & Hb & Hd).
    destruct (unfiltered lower _ Hlower Hs) as [H1 H2].
    rewrite H1, H2. now split.
Qed.

Lemma moving_shows_the_whole_lists_witness :
  filteredBrands sameText (fst (resetForm anyVisitor browsingBrands))
  = brands browsingBrands /\
  filteredRepairDocs sameText (fst (resetForm anyVisitor browsingBrands))
  = repairDocs browsingBrands.
Proof.
  apply (moving_shows_the_whole_lists sameText anyVisitor browsingBrands).
  reflexivity.
Defined.

(** X19: a filtered list only ever holds entries of the list it filters, and
    typing the full name of a brand, or the full model of a repair document,
    keeps that entry on display, whatever the platform's lower-casing does. *)
Theorem search_by_full_name_finds
  (lower : string -> string) (st : State) (brand : Brand) (doc : RepairDocument) :
  (In brand (filteredBrands lower st) -> In brand (brands st)) /\
  (In doc (filteredRepairDocs lower st) -> In doc (repairDocs st)) /\
  (In brand (brands st) -> searchTerm st = brand_name brand ->
     In brand (filteredBrands lower st)) /\
  (In doc (repairDocs st) -> searchTerm st = doc_model doc ->
     In doc (filteredRepairDocs lower st)).
Proof.
  unfold filteredBrands, filteredRepairDocs.
  repeat split.
  - rewrite filter_In. tauto.
  - rewrite filter_In. tauto.
  - intros Hin ->. apply filter_In. split; [exact Hin | apply includes_refl].
  - intros Hin ->. apply filter_In. split; [exact Hin | apply includes_refl].
Qed.

Lemma search_by_full_name_finds_witness :
  In apple (filteredBrands sameText (fst (setSearchTerm "Apple" showingPhoneBrands))).
Proof.
  destruct (search_by_full_name_finds sameText
              (fst (setSearchTerm "Apple" showingPhoneBrands)) apple nokia3310)
    as (_ & _ & Hfind & _).
  apply Hfind; [left; reflexivity | reflexivity].
Defined.

(** * More of the carousel *)

Lemma pages_bounds (n : Z) :
  0 < n ->
  1 <= ProductCarousel.pages n /\
  4 * (ProductCarousel.pages n - 1) < n <= 4 * ProductCarousel.pages n.
Proof.
  unfold ProductCarousel.pages, ProductCarousel.itemsToShow. intros Hn.
  pose proof (Z.div_mod (n + 4 - 1) 4 ltac:(lia)) as Hdm.
  pose proof (Z.mod_pos_bound (n + 4 - 1) 4 ltac:(lia)) as Hmod.
  lia.
Qed.

(** X20: a beat of the autoplay is inert while the pointer hovers, a
    transition is pending or there is no product; otherwise, from an index
    that is not negative, its timer leaves the carousel on the first index of
    a page: a multiple of four that addresses a product, with the transition
    lock released. *)
Theorem autoplay_lands_on_a_page (Product : Type) (st : ProductCarousel.State Product) :
  (ProductCarousel.autoPlays Product st = false ->
     ProductCarousel.autoTick Product st = (st, None)) /\
  (ProductCarousel.autoPlays Product st = true ->
   0 <= ProductCarousel.currentIndex st ->
   exists armed,
     ProductCarousel.autoTick Product st = (armed, Some (ProductCarousel.len st, 150)) /\
     let st' := ProductCarousel.autoTimer Product (ProductCarousel.len st) armed in
     inRange (ProductCarousel.len st) (ProductCarousel.currentIndex st') /\
     (exists page, 0 <= page < ProductCarousel.pages (ProductCarousel.len st)
                   /\ ProductCarousel.currentIndex st' = page * 4) /\
     ProductCarousel.isTransitioning st' = false /\
     ProductCarousel.products st' = ProductCarousel.products st).
Proof.
  unfold ProductCarousel.autoTick.
  split; intros Hauto; rewrite Hauto; [reflexivity |].
  intros Hindex. eexists. split; [reflexivity |].
  cbn. unfold ProductCarousel.autoIndex, ProductCarousel.itemsToShow.
  assert (Hlen : 0 < ProductCarousel.len st).
  { unfold ProductCarousel.autoPlays in Hauto.
    rewrite !andb_true_iff in Hauto.
    destruct Hauto as [_ Hne]. apply negb_true_iff, Z.eqb_neq in Hne.
    unfold ProductCarousel.len in *. lia. }
  destruct (pages_bounds _ Hlen) as [Hone Hfit].
  set (pg := ProductCarousel.pages (ProductCarousel.len st)) in *.
  rewrite Z.rem_mod_nonneg by lia.
  pose proof (Z.mod_pos_bound (ProductCarousel.currentIndex st + 1) pg ltac:(lia)) as Hmod.
  unfold inRange.
  split; [lia |].
  split; [| split; reflexivity].
  exists ((ProductCarousel.currentIndex st + 1) mod pg). split; [lia | reflexivity].
Qed.

Lemma autoplay_lands_on_a_page_witness :
  exists armed,
    ProductCarousel.autoTick string tenProducts = (armed, Some (10, 150)) /\
    ProductCarousel.currentIndex (ProductCarousel.autoTimer string 10 armed) = 8.
Proof.
  destruct (autoplay_lands_on_a_page string tenProducts) as [_ Hplays].
  destruct Hplays as (armed & Htick & _); [reflexivity | vm_compute; discriminate |].
  exists armed. split; [exact Htick |].
  vm_compute in Htick. injection Htick as <-. reflexivity.
Defined.

(** X21: each dot of the carousel, pressed when no transition is pending,
    leads to the first index of its page, which addresses a product, and is
    then the dot that is lit. *)
Theorem dot_leads_to_its_page
  (Product : Type) (st : ProductCarousel.State Product) (dot : Z) :
  ProductCarousel.isTransitioning st = false ->
  0 <= dot < ProductCarousel.pages (ProductCarousel.len st) ->
  let st' := ProductCarousel.settle Product (ProductCarousel.goToSlide Product dot st) in
  ProductCarousel.currentIndex st' = dot * 4 /\
  inRange (ProductCarousel.len st) (ProductCarousel.currentIndex st') /\
  ProductCarousel.activeDot Product st' = dot /\
  ProductCarousel.isTransitioning st' = false.
Proof.
  intros Hidle Hdot. cbv zeta.
  unfold ProductCarousel.goToSlide. rewrite Hidle. cbn.
  unfold ProductCarousel.activeDot, ProductCarousel.itemsToShow. cbn.
  assert (Hlen : 0 < ProductCarousel.len st).
  { unfold ProductCarousel.pages, ProductCarousel.itemsToShow in Hdot.
    destruct (Z_lt_le_dec 0 (ProductCarousel.len st)) as [H | H]; [exact H |].
    exfalso.
    assert ((ProductCarousel.len st + 4 - 1) / 4 < 1)
      by (apply Z.div_lt_upper_bound; lia).
    lia. }
  destruct (pages_bounds _ Hlen) as [_ Hfit].
  unfold inRange.
  repeat split; try lia.
  apply Z.div_mul. lia.
Qed.

Lemma dot_leads_to_its_page_witness :
  ProductCarousel.currentIndex
    (ProductCarousel.settle string (ProductCarousel.goToSlide string 2 tenProducts)) = 8 /\
  ProductCarousel.activeDot string
    (ProductCarousel.settle string (ProductCarousel.goToSlide string 2 tenProducts)) = 2.
Proof.
  destruct (dot_leads_to_its_page string tenProducts 2) as (Hindex & _ & Hdot & _).
  - reflexivity.
  - vm_compute. split; [discriminate | reflexivity].
  - split; [exact Hindex | exact Hdot].
Defined.

(** X22: while a transition is pending every control of the carousel is
    inert: after a press that was accepted, a second press of next, previous
    or a dot, and a beat of the autoplay, change nothing and arm nothing; the
    timer of the first press then moves the index once and releases the lock. *)
Theorem press_during_transition_is_ignored
  (Product : Type) (st : ProductCarousel.State Product) (dot : Z) :
  ProductCarousel.isTransitioning st = false ->
  let pressed := fst (ProductCarousel.nextSlide Product st) in
  snd (ProductCarousel.nextSlide Product st)
  = Some (ProductCarousel.Advance (ProductCarousel.len st), 150) /\
  ProductCarousel.nextSlide Product pressed = (pressed, None) /\
  ProductCarousel.prevSlide Product pressed = (pressed, None) /\
  ProductCarousel.goToSlide Product dot pressed = (pressed, None) /\
  ProductCarousel.autoTick Product pressed = (pressed, None) /\
  ProductCarousel.currentIndex pressed = ProductCarousel.currentIndex st /\
  ProductCarousel.currentIndex (ProductCarousel.advance st)
  = ProductCarousel.nextIndex (ProductCarousel.len st) (ProductCarousel.currentIndex st) /\
  ProductCarousel.isTransitioning (ProductCarousel.advance st) = false.
Proof.
  intros Hidle. cbv zeta.
  unfold ProductCarousel.advance, ProductCarousel.nextSlide, ProductCarousel.prevSlide,
    ProductCarousel.goToSlide, ProductCarousel.autoTick, ProductCarousel.autoPlays.
  rewrite Hidle. cbn. rewrite andb_false_r. repeat split.
Qed.

Lemma press_during_transition_is_ignored_witness :
  ProductCarousel.nextSlide string (fst (ProductCarousel.nextSlide string tenProducts))
  = (fst (ProductCarousel.nextSlide string tenProducts), None).
Proof.
  destruct (press_during_transition_is_ignored string tenProducts 0 eq_refl)
    as (_ & Hagain & _).
  exact Hagain.
Defined.

(** X23: with at least four products and no transition pending, the next and
    previous buttons undo one another and keep the index on a product. *)
Theorem buttons_undo_each_other_when_page_fits
  (Product : Type) (st : ProductCarousel.State Product) :
  ProductCarousel.isTransitioning st = false ->
  4 <= ProductCarousel.len st ->
  inRange (ProductCarousel.len st) (ProductCarousel.currentIndex st) ->
  inRange (ProductCarousel.len st) (ProductCarousel.currentIndex (ProductCarousel.advance st)) /\
  inRange (ProductCarousel.len st) (ProductCarousel.currentIndex (ProductCarousel.retreat st)) /\
  ProductCarousel.currentIndex (ProductCarousel.retreat (ProductCarousel.advance st))
  = ProductCarousel.currentIndex st /\
  ProductCarousel.currentIndex (ProductCarousel.advance (ProductCarousel.retreat st))
  = ProductCarousel.currentIndex st.
Proof.
  intros Hidle Hfit Hrange.
  destruct (carousel_wraps_when_page_fits _ _ Hfit Hrange) as (Hn & Hp & Hnp & Hpn).
  unfold ProductCarousel.advance, ProductCarousel.retreat,
    ProductCarousel.nextSlide, ProductCarousel.prevSlide,
    ProductCarousel.len in *.
  rewrite Hidle. cbn.
  exact (conj Hn (conj Hp (conj Hnp Hpn))).
Qed.

Lemma buttons_undo_each_other_when_page_fits_witness :
  ProductCarousel.currentIndex (ProductCarousel.retreat (ProductCarousel.advance tenProducts))
  = 4.
Proof.
  destruct (buttons_undo_each_other_when_page_fits string tenProducts) as (_ & _ & Hback & _).
  - reflexivity.
  - vm_compute. discriminate.
  - vm_compute. split; [discriminate | reflexivity].
  - exact Hback.
Defined.

(** ** Loading the products *)

(** X24: a product fetch shows the spinner and asks the endpoint of the
    carousel's type; when it settles the spinner is gone; a list that arrives
    replaces the products with no error; any failure empties the products and
    records its message, so that the slides are not shown: the error panel is,
    or the empty panel when the message is empty. The index is left where it
    was in every case. *)
Theorem fetchProducts_settles
  (Product : Type) (type : ProductCarousel.Kind) (r : ProductCarousel.Fetched Product)
  (l : ProductCarousel.Loader Product) :
  let started := fst (ProductCarousel.fetchProducts_start Product type l) in
  let settled := ProductCarousel.fetchProducts_resolve Product r started in
  ProductCarousel.view Product started = ProductCarousel.Spinner /\
  snd (ProductCarousel.fetchProducts_start Product type l)
  = ProductCarousel.endpoint type /\
  ProductCarousel.loading Product settled = false /\
  ProductCarousel.currentIndex (ProductCarousel.slides Product settled)
  = ProductCarousel.currentIndex (ProductCarousel.slides Product l) /\
  match r with
  | ProductCarousel.Listed _ data =>
      ProductCarousel.products (ProductCarousel.slides Product settled) = data /\
      ProductCarousel.error Product settled = None /\
      ProductCarousel.view Product settled
      = match data with
        | [] => ProductCarousel.EmptyPanel
        | _ :: _ => ProductCarousel.SlidesPanel
        end
  | _ =>
      ProductCarousel.products (ProductCarousel.slides Product settled) = [] /\
      (exists message,
         ProductCarousel.error Product settled = Some message /\
         ProductCarousel.view Product settled
         = if String.eqb message "" then ProductCarousel.EmptyPanel
           else ProductCarousel.ErrorPanel message) /\
      ProductCarousel.view Product settled <> ProductCarousel.SlidesPanel
  end.
Proof.
  cbv zeta.
  split; [reflexivity |].
  split; [reflexivity |].
  destruct r as [message | status statusText | message | data]; cbn.
  4: { repeat split. unfold ProductCarousel.view. cbn.
       destruct data; reflexivity. }
  all: split; [reflexivity |]; split; [reflexivity |]; split; [reflexivity |];
    split;
    [ eexists; split; [reflexivity |];
      unfold ProductCarousel.view; cbn;
      try match goal with
          | |- context [String.eqb ?m ""] => destruct (String.eqb m "")
          end;
      reflexivity
    | unfold ProductCarousel.view; cbn;
      try match goal with
          | |- context [String.eqb ?m ""] => destruct (String.eqb m "")
          end;
      discriminate ].
Qed.

(** X25: the slides, and with them the buttons, the dots and the autoplay's
    index arithmetic, are on display only when nothing is loading, no error
    with a message is recorded and there is at least one product: the modulus
    of the index arithmetic is never zero. *)
Theorem slides_only_with_products
  (Product : Type) (l : ProductCarousel.Loader Product) :
  ProductCarousel.view Product l = ProductCarousel.SlidesPanel ->
  ProductCarousel.loading Product l = false /\
  (ProductCarousel.error Product l = None \/ ProductCarousel.error Product l = Some "") /\
  0 < ProductCarousel.len (ProductCarousel.slides Product l) /\
  1 <= ProductCarousel.pages (ProductCarousel.len (ProductCarousel.slides Product l)).
Proof.
  unfold ProductCarousel.view.
  destruct (ProductCarousel.loading Product l); [discriminate |].
  assert (Hlen : (ProductCarousel.len (ProductCarousel.slides Product l) =? 0) = false ->
                 0 < ProductCarousel.len (ProductCarousel.slides Product l)).
  { intros H. apply Z.eqb_neq in H. unfold ProductCarousel.len in *. lia. }
  destruct (ProductCarousel.error Product l) as [message |].
  - destruct (String.eqb_spec message "") as [-> | _]; [| discriminate].
    destruct (ProductCarousel.len (ProductCarousel.slides Product l) =? 0) eqn:E;
      [discriminate |].
    intros _. specialize (Hlen eq_refl).
    repeat split; auto. apply pages_bounds. exact Hlen.
  - destruct (ProductCarousel.len (ProductCarousel.slides Product l) =? 0) eqn:E;
      [discriminate |].
    intros _. specialize (Hlen eq_refl).
    repeat split; auto. apply pages_bounds. exact Hlen.
Qed.

Lemma slides_only_with_products_witness :
  0 < ProductCarousel.len
        (ProductCarousel.slides string
           (ProductCarousel.fetchProducts_resolve string
              (ProductCarousel.Listed string ["p1"; "p2"; "p3"]) freshLoader)).
Proof.
  destruct (slides_only_with_products string
              (ProductCarousel.fetchProducts_resolve string
                 (ProductCarousel.Listed string ["p1"; "p2"; "p3"]) freshLoader)
              eq_refl) as (_ & _ & Hlen & _).
  exact Hlen.
Defined.

(** * The image pager of the detail overlay *)

(** X26: the images of the overlay are never an empty list: the product's own
    images when it has some, its main image alone otherwise.  So from any
    index that addresses an image the next and previous arrows (drawn when
    there is more than one image) stay on an image and undo one another. *)
Theorem image_pager_wraps (images : option (list string)) (image : string) :
  let shown := ProductDetails.productImages images image in
  let n := Z.of_nat (List.length shown) in
  shown <> [] /\
  1 <= n /\
  (forall own, images = Some own -> own <> [] -> shown = own) /\
  (images = None \/ images = Some [] -> shown = [image]) /\
  (forall i, inRange n i ->
     inRange n (ProductDetails.nextImage n i) /\
     inRange n (ProductDetails.prevImage n i) /\
     ProductDetails.prevImage n (ProductDetails.nextImage n i) = i /\
     ProductDetails.nextImage n (ProductDetails.prevImage n i) = i).
Proof.
  cbv zeta.
  assert (Hshown : ProductDetails.productImages images image <> []).
  { unfold ProductDetails.productImages.
    destruct images as [[| first rest] |]; cbn; discriminate. }
  split; [exact Hshown |].
  split.
  { destruct (ProductDetails.productImages images image); [contradiction |].
    cbn [List.length]. lia. }
  split.
  { intros own -> Hown. unfold ProductDetails.productImages.
    destruct own as [| first rest]; [contradiction | reflexivity]. }
  split.
  { intros [-> | ->]; reflexivity. }
  intros i Hrange. now apply pager_wraps.
Qed.

Lemma image_pager_wraps_witness :
  inRange 3 (ProductDetails.nextImage 3 2) /\
  ProductDetails.prevImage 3 (ProductDetails.nextImage 3 2) = 2.
Proof.
  destruct (image_pager_wraps (Some ["front.png"; "back.png"; "side.png"]) "main.png")
    as (_ & _ & _ & _ & Hpager).
  destruct (Hpager 2) as (Hnext & _ & Hback & _).
  - vm_compute. split; [discriminate | reflexivity].
  - split; [exact Hnext | exact Hback].
Defined.

